(** * Optimization goals of pySMT ([pysmt/optimization/goal.py])

    A shallow embedding of the goal classes: the class hierarchy rooted at
    [Goal], the kind predicates implemented with [isinstance], the accessors
    of the simple and aggregate goals and the soft-clause store of
    [MaxSMTGoal].

    Python objects are mutable and shared, so the embedding works over an
    explicit heap: a reference is an index in the heap, lists and instances
    live in heap cells, and every operation is a function from heaps to an
    outcome and a heap.  An exception keeps the heap as it was when the
    exception was raised (Python does not roll back).

    The module runs under Python 2 and under Python 3, and the two differ
    in one place, the built-in [zip] the constructor of [MaxSMTGoal] calls.
    The language version is therefore a parameter of the embedding; what
    does not mention [zip] holds for both. *)

From Stdlib Require Import ZArith.
From stdpp Require Import gmap strings list.

Local Open Scope string_scope.
Local Open Scope list_scope.
Local Open Scope nat_scope.

(** ** Values and objects *)

(** [zip] is a list in Python 2 and a single-pass iterator in Python 3; it is
    the only place of the module whose meaning depends on the language
    version. *)
Inductive pyversion := Py2 | Py3.

Abbreviation loc := nat (only parsing).

(** A term is an [FNode] handle owned by the formula manager; goals only
    store and return such handles, so a handle is an opaque identifier. *)
Abbreviation term := nat (only parsing).

#[local] Unset Elimination Schemes.
Inductive value :=
| VNone
| VBool (b : bool)
| VInt (z : Z)
| VTerm (t : term)
| VTuple (vs : list value)
| VRef (l : loc).
#[local] Set Elimination Schemes.

Inductive cls :=
| Object
| Goal
| MaximizationGoal
| MinimizationGoal
| MinMaxGoal
| MaxMinGoal
| MaxSMTGoal.

#[global] Instance cls_eq_dec : EqDecision cls.
Proof. solve_decision. Defined.

(** What a list or tuple iterator walks over. *)
Inductive seq_src :=
| SrcList (l : loc)
| SrcTuple (vs : list value).

Inductive obj :=
| OList (items : list value)
| OSeqIter (src : option seq_src) (pos : nat)
| OZip (iters : list loc)
| OInstance (c : cls) (attrs : gmap string value).

Abbreviation heap := (list obj) (only parsing).

(** The exceptions of the built-ins the module calls.  [SystemError] stands
    for what no Python program can reach: a reference outside the heap, or
    a zip object nested deeper than the heap is large. *)
Inductive exn := AttributeError | TypeError | StopIteration | SystemError.

Inductive outcome (A : Type) :=
| Ok (a : A)
| Raise (e : exn).
Arguments Ok {A} a.
Arguments Raise {A} e.

(** ** The state-and-exception monad *)

Definition M (A : Type) : Type := heap -> outcome A * heap.

Definition ret {A} (a : A) : M A := fun h => (Ok a, h).

Definition raise {A} (e : exn) : M A := fun h => (Raise e, h).

Definition bind {A B} (m : M A) (k : A -> M B) : M B :=
  fun h =>
    match m h with
    | (Ok a, h1) => k a h1
    | (Raise e, h1) => (Raise e, h1)
    end.

#[global] Instance M_ret : MRet M := @ret.
#[global] Instance M_bind : MBind M := fun A B k m => bind m k.

Definition alloc (o : obj) : M loc :=
  fun h => (Ok (length h), h ++ [o]).

(** ** Classes *)

(** Every class of the module derives directly from [Goal], and [Goal] from
    [object]. *)
Definition mro (c : cls) : list cls :=
  match c with
  | Object => [Object]
  | Goal => [Goal; Object]
  | _ => [c; Goal; Object]
  end.

Definition issubclass (c d : cls) : bool := bool_decide (d ∈ mro c).

(** [isinstance(v, d)] for the classes of this module: only an instance whose
    class has [d] in its resolution order qualifies. *)
Definition isinstance (v : value) (d : cls) : M value :=
  fun h =>
    match v with
    | VRef l =>
        match h !! l with
        | Some (OInstance c _) => (Ok (VBool (issubclass c d)), h)
        | Some _ => (Ok (VBool false), h)
        | None => (Raise SystemError, h)
        end
    | _ => (Ok (VBool false), h)
    end.

(** [self.name], read.  The names the methods read ([formula], [term] of the
    aggregate goals, [soft]) are not defined by any class of the hierarchy,
    so the lookup succeeds in the instance dictionary or raises. *)
Definition getattr (v : value) (name : string) : M value :=
  fun h =>
    match v with
    | VRef l =>
        match h !! l with
        | Some (OInstance _ attrs) =>
            match attrs !! name with
            | Some x => (Ok x, h)
            | None => (Raise AttributeError, h)
            end
        | Some _ => (Raise AttributeError, h)
        | None => (Raise SystemError, h)
        end
    | _ => (Raise AttributeError, h)
    end.

(** [self.name = x]. *)
Definition setattr (v : value) (name : string) (x : value) : M unit :=
  fun h =>
    match v with
    | VRef l =>
        match h !! l with
        | Some (OInstance c attrs) =>
            (Ok tt, <[l := OInstance c (<[name := x]> attrs)]> h)
        | Some _ => (Raise AttributeError, h)
        | None => (Raise SystemError, h)
        end
    | _ => (Raise AttributeError, h)
    end.

(** ** Built-in sequences and iterators *)

(** The items an iterator source currently denotes: a list iterator reads
    the live list, a tuple iterator its own immutable tuple. *)
Definition src_items (h : heap) (s : seq_src) : option (list value) :=
  match s with
  | SrcList l =>
      match h !! l with
      | Some (OList items) => Some items
      | _ => None
      end
  | SrcTuple vs => Some vs
  end.

(** [iter(v)]: a list or a tuple gets a fresh iterator at position 0, an
    iterator is its own iterator, and a goal instance, a number or [None]
    is not iterable.  A term is a formula node of pySMT, whose own iteration
    protocol lives outside this module: the embedding does not model it and
    answers [TypeError], and no property below is stated for a term in the
    place of a sequence. *)
Definition py_iter (v : value) : M loc :=
  fun h =>
    match v with
    | VTuple vs => alloc (OSeqIter (Some (SrcTuple vs)) 0) h
    | VRef l =>
        match h !! l with
        | Some (OList _) => alloc (OSeqIter (Some (SrcList l)) 0) h
        | Some (OSeqIter _ _) | Some (OZip _) => (Ok l, h)
        | Some (OInstance _ _) => (Raise TypeError, h)
        | None => (Raise SystemError, h)
        end
    | _ => (Raise TypeError, h)
    end.

(** [next] of a list or tuple iterator at [it], whose source is [s] and
    position [pos]: it yields the item at its position and advances; past
    the end it drops its source and stays exhausted. *)
Definition seq_next (it : loc) (s : option seq_src) (pos : nat) : M value :=
  fun h =>
    match s with
    | None => (Raise StopIteration, h)
    | Some s =>
        match src_items h s with
        | Some items =>
            match items !! pos with
            | Some x => (Ok x, <[it := OSeqIter (Some s) (S pos)]> h)
            | None => (Raise StopIteration, <[it := OSeqIter None pos]> h)
            end
        | None => (Raise SystemError, h)
        end
    end.

(** One round of a zip object: its iterators are asked from left to right,
    and the round stops at the first one that stops, the items already taken
    from the earlier ones being lost. *)
Fixpoint zip_round (nxt : loc -> M value) (iters : list loc) : M (list value) :=
  fun h =>
    match iters with
    | [] => (Ok [], h)
    | i :: rest =>
        match nxt i h with
        | (Ok x, h1) =>
            match zip_round nxt rest h1 with
            | (Ok xs, h2) => (Ok (x :: xs), h2)
            | (Raise e, h2) => (Raise e, h2)
            end
        | (Raise e, h1) => (Raise e, h1)
        end
    end.

(** [next(it)].  A zip object over no iterator stops at once.  [d] bounds
    the nesting of zip objects inside zip objects. *)
Fixpoint next_depth (d : nat) (it : loc) (h : heap) : outcome value * heap :=
  match d with
  | 0 => (Raise SystemError, h)
  | S d' =>
      match h !! it with
      | Some (OSeqIter s pos) => seq_next it s pos h
      | Some (OZip []) => (Raise StopIteration, h)
      | Some (OZip iters) =>
          match zip_round (next_depth d') iters h with
          | (Ok xs, h1) => (Ok (VTuple xs), h1)
          | (Raise e, h1) => (Raise e, h1)
          end
      | Some _ => (Raise TypeError, h)
      | None => (Raise SystemError, h)
      end
  end.

(** An object only refers to objects allocated before it, so the nesting is
    below the size of the heap. *)
Definition py_next (it : loc) : M value :=
  fun h => next_depth (length h) it h.

(** The loop [for x in it: acc.append(x)]: [None] when the fuel runs out
    before the iterator stops. *)
Fixpoint collect (fuel : nat) (it : loc) (h : heap)
  : option (outcome (list value) * heap) :=
  match fuel with
  | 0 => None
  | S fuel' =>
      match py_next it h with
      | (Ok x, h1) =>
          match collect fuel' it h1 with
          | Some (Ok xs, h2) => Some (Ok (x :: xs), h2)
          | r => r
          end
      | (Raise StopIteration, h1) => Some (Ok [], h1)
      | (Raise e, h1) => Some (Raise e, h1)
      end
  end.

(** [for x in v: ...] over a value: [iter] first, then [next] until it
    stops. *)
Definition iterate (fuel : nat) (v : value) (h : heap)
  : option (outcome (list value) * heap) :=
  match py_iter v h with
  | (Ok it, h1) => collect fuel it h1
  | (Raise e, h1) => Some (Raise e, h1)
  end.

(** The number of items held by the lists and tuple iterators of a heap: no
    loop over an iterator of the heap runs longer. *)
Definition obj_weight (o : obj) : nat :=
  match o with
  | OList items => length items
  | OSeqIter (Some (SrcTuple vs)) _ => length vs
  | _ => 0
  end.

Definition heap_weight (h : heap) : nat := sum_list (obj_weight <$> h).

(** The lock step of Python 2's [zip], run to the end on the zip state [z],
    the pairs stored as a new list.  The fuel is never used up: every round
    takes an item from the first iterator. *)
Definition zip_to_list (z : loc) : M value :=
  fun h =>
    match collect (S (heap_weight h)) z h with
    | Some (Ok pairs, h1) => (Ok (VRef (length h1)), h1 ++ [OList pairs])
    | Some (Raise e, h1) => (Raise e, h1)
    | None => (Raise SystemError, h)
    end.

(** [zip(a, b)].  Both versions take the iterators of the arguments from left
    to right and pair their items in lock step.  Python 3 returns the zip
    object itself, nothing consumed yet; Python 2 runs the lock step to the
    end and returns the pairs as a new list (the iterators it used stay in
    the heap, unreachable). *)
Definition py_zip (py : pyversion) (a b : value) : M value :=
  ia ← py_iter a;
  ib ← py_iter b;
  z ← alloc (OZip [ia; ib]);
  match py with
  | Py3 => mret (VRef z)
  | Py2 => zip_to_list z
  end.

(** [lst.append] and [lst.extend], looked up: only a list has them among the
    objects of this module; the result is the list the method is bound to. *)
Definition list_method (v : value) : M loc :=
  fun h =>
    match v with
    | VRef l =>
        match h !! l with
        | Some (OList _) => (Ok l, h)
        | Some _ => (Raise AttributeError, h)
        | None => (Raise SystemError, h)
        end
    | _ => (Raise AttributeError, h)
    end.

(** The items of a list or of a tuple, as they are now. *)
Definition seq_items (v : value) : M (list value) :=
  fun h =>
    match v with
    | VTuple vs => (Ok vs, h)
    | VRef l =>
        match h !! l with
        | Some (OList items) => (Ok items, h)
        | Some _ => (Raise TypeError, h)
        | None => (Raise SystemError, h)
        end
    | _ => (Raise TypeError, h)
    end.

(** The list at [l] grows in place by [more], at its end. *)
Definition list_add (l : loc) (more : list value) : M value :=
  fun h =>
    match h !! l with
    | Some (OList items) => (Ok VNone, <[l := OList (items ++ more)]> h)
    | Some _ => (Raise TypeError, h)
    | None => (Raise SystemError, h)
    end.

(** [lst.append(x)] on the list at [l]. *)
Definition list_append (l : loc) (x : value) : M value :=
  list_add l [x].

(** [lst.extend(other)] on the list at [l], for [other] a list or a tuple:
    the items of [other] are read first, then added at the end of [lst]. *)
Definition list_extend (l : loc) (other : value) : M value :=
  more ← seq_items other;
  list_add l more.

(** [list(args)] for the tuple of the arguments of a variadic call. *)
Definition py_list (args : list value) : M value :=
  l ← alloc (OList args); mret (VRef l).

(** ** The methods of goal.py *)

(** *** class Goal *)

Definition Goal_is_maximization_goal (self : value) : M value :=
  isinstance self MaximizationGoal.

Definition Goal_is_minimization_goal (self : value) : M value :=
  isinstance self MinimizationGoal.

Definition Goal_is_minmax_goal (self : value) : M value :=
  isinstance self MinMaxGoal.

Definition Goal_is_maxmin_goal (self : value) : M value :=
  isinstance self MaxMinGoal.

Definition Goal_is_maxsmt_goal (self : value) : M value :=
  isinstance self MaxSMTGoal.

Definition Goal_is_simple_goal (self : value) : M value :=
  mret (VBool false).

(** *** class MaximizationGoal(Goal) *)

Definition MaximizationGoal___init__ (self formula : value) : M value :=
  setattr self "formula" formula;; mret VNone.

Definition MaximizationGoal_term (self : value) : M value :=
  getattr self "formula".

Definition MaximizationGoal_is_simple_goal (self : value) : M value :=
  mret (VBool true).

(** *** class MinimizationGoal(Goal) *)

Definition MinimizationGoal___init__ (self formula : value) : M value :=
  setattr self "formula" formula;; mret VNone.

Definition MinimizationGoal_term (self : value) : M value :=
  getattr self "formula".

Definition MinimizationGoal_is_simple_goal (self : value) : M value :=
  mret (VBool true).

(** *** class MinMaxGoal(Goal) *)

Definition MinMaxGoal___init__ (self terms : value) : M value :=
  setattr self "term" terms;; mret VNone.

(** [self.term.extend(list(terms))]: the attribute and its [extend] are
    looked up before the argument list is built. *)
Definition MinMaxGoal_add_terms (self : value) (terms : list value) : M value :=
  t ← getattr self "term";
  l ← list_method t;
  tmp ← py_list terms;
  list_extend l tmp.

Definition MinMaxGoal_terms (self : value) : M value :=
  getattr self "term".

Definition MinMaxGoal_is_simple_goal (self : value) : M value :=
  mret (VBool true).

(** *** class MaxMinGoal(Goal) *)

Definition MaxMinGoal___init__ (self terms : value) : M value :=
  setattr self "term" terms;; mret VNone.

Definition MaxMinGoal_add_terms (self : value) (terms : list value) : M value :=
  t ← getattr self "term";
  l ← list_method t;
  tmp ← py_list terms;
  list_extend l tmp.

Definition MaxMinGoal_terms (self : value) : M value :=
  getattr self "term".

Definition MaxMinGoal_is_simple_goal (self : value) : M value :=
  mret (VBool true).

(** *** class MaxSMTGoal(Goal) *)

Definition MaxSMTGoal___init__ (py : pyversion) (self clause weight : value)
  : M value :=
  z ← py_zip py clause weight;
  setattr self "soft" z;; mret VNone.

(** [self.soft.append((clause, weight))]. *)
Definition MaxSMTGoal_add_soft_clause (self clause weight : value) : M value :=
  s ← getattr self "soft";
  l ← list_method s;
  list_append l (VTuple [clause; weight]).

(** ** Calls *)

(** A method as the interpreter calls it: the receiver and the positional
    arguments; a wrong number of arguments is a [TypeError]. *)
Abbreviation body := (value -> list value -> M value) (only parsing).

Definition arity0 (f : value -> M value) : value -> list value -> M value :=
  fun self args =>
    match args with
    | [] => f self
    | _ => raise TypeError
    end.

Definition arity1 (f : value -> value -> M value)
  : value -> list value -> M value :=
  fun self args =>
    match args with
    | [a] => f self a
    | _ => raise TypeError
    end.

Definition arity2 (f : value -> value -> value -> M value)
  : value -> list value -> M value :=
  fun self args =>
    match args with
    | [a; b] => f self a b
    | _ => raise TypeError
    end.

(** [object.__init__] takes no argument. *)
Definition object___init__ (self : value) : M value := mret VNone.

(** The methods each class statement defines.  Of [object] only [__init__]
    is modelled: the names every Python object inherits from it ([__eq__],
    [__repr__], [__setattr__], ...) are outside the embedding, and the
    properties below that speak of a name the classes do not define are
    stated for the method names of this module. *)
Definition class_dict (py : pyversion) (c : cls)
  : list (string * (value -> list value -> M value)) :=
  match c with
  | Object =>
      [("__init__", arity0 object___init__)]
  | Goal =>
      [("is_maximization_goal", arity0 Goal_is_maximization_goal);
       ("is_minimization_goal", arity0 Goal_is_minimization_goal);
       ("is_minmax_goal", arity0 Goal_is_minmax_goal);
       ("is_maxmin_goal", arity0 Goal_is_maxmin_goal);
       ("is_maxsmt_goal", arity0 Goal_is_maxsmt_goal);
       ("is_simple_goal", arity0 Goal_is_simple_goal)]
  | MaximizationGoal =>
      [("__init__", arity1 MaximizationGoal___init__);
       ("term", arity0 MaximizationGoal_term);
       ("is_simple_goal", arity0 MaximizationGoal_is_simple_goal)]
  | MinimizationGoal =>
      [("__init__", arity1 MinimizationGoal___init__);
       ("term", arity0 MinimizationGoal_term);
       ("is_simple_goal", arity0 MinimizationGoal_is_simple_goal)]
  | MinMaxGoal =>
      [("__init__", arity1 MinMaxGoal___init__);
       ("add_terms", MinMaxGoal_add_terms);
       ("terms", arity0 MinMaxGoal_terms);
       ("is_simple_goal", arity0 MinMaxGoal_is_simple_goal)]
  | MaxMinGoal =>
      [("__init__", arity1 MaxMinGoal___init__);
       ("add_terms", MaxMinGoal_add_terms);
       ("terms", arity0 MaxMinGoal_terms);
       ("is_simple_goal", arity0 MaxMinGoal_is_simple_goal)]
  | MaxSMTGoal =>
      [("__init__", arity2 (MaxSMTGoal___init__ py));
       ("add_soft_clause", arity2 MaxSMTGoal_add_soft_clause)]
  end.

Fixpoint assoc {A} (name : string) (d : list (string * A)) : option A :=
  match d with
  | [] => None
  | (k, x) :: rest => if String.eqb k name then Some x else assoc name rest
  end.

(** The first class of the resolution order that defines [name]. *)
Fixpoint resolve (py : pyversion) (name : string) (order : list cls)
  : option (value -> list value -> M value) :=
  match order with
  | [] => None
  | c :: rest =>
      match assoc name (class_dict py c) with
      | Some f => Some f
      | None => resolve py name rest
      end
  end.

Definition find_method (py : pyversion) (c : cls) (name : string)
  : option (value -> list value -> M value) :=
  resolve py name (mro c).

(** The call [recv.name(args...)] of a method of this module.  The instance
    dictionary is looked up first: the data it holds is stored by
    [__init__] and is not a method, so calling it is a [TypeError] (for a
    list, a tuple or a pairing; what calling a stored term does is decided
    by pySMT's formula nodes and is not modelled).  A receiver that is not a goal instance has none of the
    methods of the module; the methods of the built-in objects are not
    reached through here but through [list_method], as the module does. *)
Definition call_method (py : pyversion) (recv : value) (name : string)
    (args : list value) : M value :=
  fun h =>
    match recv with
    | VRef l =>
        match h !! l with
        | Some (OInstance c attrs) =>
            match attrs !! name with
            | Some _ => (Raise TypeError, h)
            | None =>
                match find_method py c name with
                | Some f => f recv args h
                | None => (Raise AttributeError, h)
                end
            end
        | Some _ => (Raise AttributeError, h)
        | None => (Raise SystemError, h)
        end
    | _ => (Raise AttributeError, h)
    end.

(** The call [c(args...)]: a new instance with an empty dictionary, initialised by the
    [__init__] the class resolves to. *)
Definition construct (py : pyversion) (c : cls) (args : list value) : M value :=
  l ← alloc (OInstance c ∅);
  match find_method py c "__init__" with
  | Some init => init (VRef l) args;; mret (VRef l)
  | None => raise SystemError
  end.

(** The consumer's loop [for pair in goal.soft]. *)
Definition soft_pairs (fuel : nat) (goal : value) (h : heap)
  : option (outcome (list value) * heap) :=
  match getattr goal "soft" h with
  | (Ok s, h1) => iterate fuel s h1
  | (Raise e, h1) => Some (Raise e, h1)
  end.

(** ** How a heap may change

    Reading never rewrites a list and a public method never rewrites an
    instance.  [evolves h h'] keeps every cell of [h] in [h']: a list is
    still a list, an iterator is still an iterator over the same source or
    is exhausted, and a zip object or an instance is unchanged. *)

Definition cell_evolves (o o' : obj) : Prop :=
  match o with
  | OList _ => ∃ items', o' = OList items'
  | OSeqIter s _ => ∃ s' p', o' = OSeqIter s' p' ∧ (s' = None ∨ s' = s)
  | _ => o' = o
  end.

(** Every cell of [h] is still there in [h'], changed as [cell_evolves] allows. *)
Definition evolves (h h' : list obj) : Prop :=
  ∀ l o, h !! l = Some o → ∃ o', h' !! l = Some o' ∧ cell_evolves o o'.

(** A computation that only lets the heap evolve, and one that leaves the
    heap as it is. *)
Definition evolving {A} (m : M A) : Prop :=
  ∀ h r h', m h = (r, h') → evolves h h'.

Definition pure {A} (m : M A) : Prop :=
  ∀ h r h', m h = (r, h') → h' = h.

(** ** Programs over a goal

    What a client does between the construction of a goal and a later
    query: it calls methods of goals, it reads the soft pairs of a goal,
    and it changes the lists it holds references to, in any way ([append],
    [pop], [sort], ...: the list at [l] then holds [items]).  A direct call
    of [__init__] on an existing instance is not a public operation. *)
Inductive op :=
| Call (recv : value) (name : string) (args : list value)
| Read (goal : value) (fuel : nat)
| Mutate (l : loc) (items : list value).

Definition public (o : op) : bool :=
  match o with
  | Call _ name _ => negb (String.eqb name "__init__")
  | Read _ _ | Mutate _ _ => true
  end.

Definition run_op (py : pyversion) (o : op) (h : heap) : heap :=
  match o with
  | Call recv name args => snd (call_method py recv name args h)
  | Read goal fuel =>
      match soft_pairs fuel goal h with
      | Some (_, h') => h'
      | None => h
      end
  | Mutate l items =>
      match h !! l with
      | Some (OList _) => <[l := OList items]> h
      | _ => h
      end
  end.

Definition run_ops (py : pyversion) (ops : list op) (h : heap) : heap :=
  foldl (fun h o => run_op py o h) h ops.

(** The five kind predicates and the class each one tests. *)
Definition kind_predicates : list (string * cls) :=
  [("is_maximization_goal", MaximizationGoal);
   ("is_minimization_goal", MinimizationGoal);
   ("is_minmax_goal", MinMaxGoal);
   ("is_maxmin_goal", MaxMinGoal);
   ("is_maxsmt_goal", MaxSMTGoal)].

Definition concrete_goals : list cls :=
  [MaximizationGoal; MinimizationGoal; MinMaxGoal; MaxMinGoal; MaxSMTGoal].

(** The pair [(clause, weight)] as the module builds it. *)
Definition soft_pair (c w : value) : value := VTuple [c; w].

(** The attributes the constructors store; an instance dictionary holds
    nothing else. *)
Definition data_names : list string := ["formula"; "term"; "soft"].
Definition data_only (attrs : gmap string value) : Prop :=
  ∀ name, is_Some (attrs !! name) → name ∈ data_names.

(** The classes that override [is_simple_goal]. *)
Definition simple_goals : list cls :=
  [MaximizationGoal; MinimizationGoal; MinMaxGoal; MaxMinGoal].

(** The list a value denotes in a heap: what a client sees when it looks
    through a reference it holds. *)
Definition deref (h : heap) (v : value) : option (list value) :=
  match v with
  | VTuple vs => Some vs
  | VRef l =>
      match h !! l with
      | Some (OList items) => Some items
      | _ => None
      end
  | _ => None
  end.

Definition single_term_goals : list cls := [MaximizationGoal; MinimizationGoal].

Definition aggregate_goals : list cls := [MinMaxGoal; MaxMinGoal].

(** ** States of the lazy pairing *)

(** The source of an iterator is usable: a list iterator still points at a
    list. *)
Definition src_ok (h : list obj) (s : option seq_src) : Prop :=
  match s with
  | Some (SrcList l) => ∃ items, h !! l = Some (OList items)
  | _ => True
  end.

(** What an iterator with source [s] at position [pos] has yet to yield. *)
Definition rest (h : list obj) (s : option seq_src) (pos : nat) : list value :=
  match s with
  | Some s =>
      match src_items h s with
      | Some items => drop pos items
      | None => []
      end
  | None => []
  end.

(** The same for the iterator stored at [it]. *)
Definition iter_rest (h : list obj) (it : nat) : list value :=
  match h !! it with
  | Some (OSeqIter s pos) => rest h s pos
  | _ => []
  end.

(** [z] is a zip object over two distinct sequence iterators [ia], [ib]. *)
Definition zip2 (h : list obj) (z ia ib : nat) : Prop :=
  ia ≠ ib ∧ h !! z = Some (OZip [ia; ib]) ∧
  ∃ sa pa sb pb,
    h !! ia = Some (OSeqIter sa pa) ∧ h !! ib = Some (OSeqIter sb pb) ∧
    src_ok h sa ∧ src_ok h sb.

(** Only the cells [ia] and [ib] differ between [h] and [h']. *)
Definition frame (ia ib : nat) (h h' : list obj) : Prop :=
  length h' = length h ∧ ∀ l, l ≠ ia → l ≠ ib → h' !! l = h !! l.

(** The source of the iterator [iter(v)] creates for a list or a tuple. *)
Definition seq_source (v : value) : seq_src :=
  match v with
  | VRef l => SrcList l
  | VTuple vs => SrcTuple vs
  | _ => SrcTuple []
  end.

(** The goal whose pairing is the zip object [z] over [ia] and [ib]. *)
Definition lazy_soft (h : list obj) (g : value) (z ia ib : nat) : Prop :=
  ∃ l attrs, g = VRef l ∧ h !! l = Some (OInstance MaxSMTGoal attrs) ∧
    data_only attrs ∧ attrs !! "soft" = Some (VRef z) ∧ zip2 h z ia ib.

(** The goal whose pairing is the list at [ls]. *)
Definition eager_soft (h : list obj) (g : value) (ls : nat) : Prop :=
  ∃ l attrs, g = VRef l ∧ h !! l = Some (OInstance MaxSMTGoal attrs) ∧
    data_only attrs ∧ attrs !! "soft" = Some (VRef ls) ∧
    ∃ items, h !! ls = Some (OList items).

(** The cells [zip(a, b)] adds after a new instance [inst]: the iterators
    of [a] and of [b], and the zip object over them. *)
Definition zip_cells (h : list obj) (inst : obj) (a b : value) : list obj :=
  h ++ [inst;
        OSeqIter (Some (seq_source a)) 0;
        OSeqIter (Some (seq_source b)) 0;
        OZip [length h + 1; length h + 2]].

(** The heap after [MaxSMTGoal(a, b)] under Python 3. *)
Definition maxsmt_heap3 (h : list obj) (a b : value) : list obj :=
  zip_cells h (OInstance MaxSMTGoal {["soft" := VRef (length h + 3)]}) a b.

(** A goal whose pairing can be read: lazily through a zip object, or
    eagerly from a list. *)
Definition soft_ready (h : list obj) (g : value) : Prop :=
  (∃ z ia ib, lazy_soft h g z ia ib) ∨ (∃ ls, eager_soft h g ls).

(** The number of arguments each constructor takes. *)
Definition arity (c : cls) : nat :=
  match c with
  | Object | Goal => 0
  | MaxSMTGoal => 2
  | _ => 1
  end.

(** ** Vocabulary of the further properties *)

(** One [add_terms] call per list of terms, in order. *)
Definition add_terms_calls (g : value) (Es : list (list value)) : list op :=
  (λ E, Call g "add_terms" E) <$> Es.

(** The names the class statements of the module give to their methods,
    [__init__] apart. *)
Definition module_methods : list string :=
  ["is_maximization_goal"; "is_minimization_goal"; "is_minmax_goal";
   "is_maxmin_goal"; "is_maxsmt_goal"; "is_simple_goal";
   "term"; "terms"; "add_terms"; "add_soft_clause"].

(** The attribute each constructor stores. *)
Definition attr_names (c : cls) : list string :=
  match c with
  | MaximizationGoal | MinimizationGoal => ["formula"]
  | MinMaxGoal | MaxMinGoal => ["term"]
  | MaxSMTGoal => ["soft"]
  | _ => []
  end.

(** The values [iter] rejects: [None], numbers and goal instances. *)
Definition not_iterable (h : list obj) (v : value) : bool :=
  match v with
  | VNone | VBool _ | VInt _ => true
  | VRef l =>
      match h !! l with
      | Some (OInstance _ _) => true
      | _ => false
      end
  | _ => false
  end.

(** * Properties *)

(** ** Heaps *)
Lemma cell_evolves_refl o : cell_evolves o o.
Proof. destruct o; simpl; eauto. Qed.

Lemma cell_evolves_trans o1 o2 o3 :
  cell_evolves o1 o2 → cell_evolves o2 o3 → cell_evolves o1 o3.
Proof.
  destruct o1; simpl.
  - intros [i ->] [j ->]. eauto.
  - intros (s' & p' & -> & Hs) (s'' & p'' & -> & Hs'). exists s'', p''.
    split; [done|]. destruct Hs' as [->| ->]; [by left | done].
  - by intros -> ->.
  - by intros -> ->.
Qed.

Lemma evolves_refl h : evolves h h.
Proof. intros l o H. exists o. split; [done | apply cell_evolves_refl]. Qed.

Lemma evolves_trans h1 h2 h3 : evolves h1 h2 → evolves h2 h3 → evolves h1 h3.
Proof.
  intros H12 H23 l o H.
  destruct (H12 l o H) as (o2 & H2 & Hc2).
  destruct (H23 l o2 H2) as (o3 & H3 & Hc3).
  exists o3. split; [done | by eapply cell_evolves_trans].
Qed.

Lemma evolves_alloc h o : evolves h (h ++ [o]).
Proof.
  intros l x H. exists x. split; [| apply cell_evolves_refl].
  by apply lookup_app_l_Some.
Qed.

Lemma evolves_insert h l o o' :
  h !! l = Some o → cell_evolves o o' → evolves h (<[l := o']> h).
Proof.
  intros Hl Hc k x Hk. destruct (decide (l = k)) as [<- | Hne].
  - exists o'. rewrite list_lookup_insert_eq by by eapply lookup_lt_Some.
    split; [done | congruence].
  - exists x. rewrite list_lookup_insert_ne by done.
    split; [done | apply cell_evolves_refl].
Qed.

Lemma evolves_length h h' : evolves h h' → length h ≤ length h'.
Proof.
  intros H. destruct (decide (length h ≤ length h')) as [|Hn]; [done|].
  destruct (lookup_lt_is_Some_2 h (length h')) as [o Ho]; [lia|].
  destruct (H _ _ Ho) as (o' & Ho' & _).
  apply lookup_lt_Some in Ho'. lia.
Qed.

Lemma seq_next_evolves it s pos h r h' :
  h !! it = Some (OSeqIter s pos) → seq_next it s pos h = (r, h') → evolves h h'.
Proof.
  intros Hit. unfold seq_next.
  destruct s as [s|]; [| intros [= <- <-]; apply evolves_refl].
  destruct (src_items h s) as [items|]; [| intros [= <- <-]; apply evolves_refl].
  destruct (items !! pos); intros [= <- <-];
    (eapply evolves_insert; [done | simpl; eauto]).
Qed.

Lemma zip_round_evolves (nxt : nat → M value) iters :
  (∀ i h r h', nxt i h = (r, h') → evolves h h') →
  ∀ h r h', zip_round nxt iters h = (r, h') → evolves h h'.
Proof.
  intros Hn. induction iters as [|i rest IH]; simpl; intros h r h'.
  - intros [= <- <-]. apply evolves_refl.
  - destruct (nxt i h) as [[x|e] h1] eqn:E1.
    + destruct (zip_round nxt rest h1) as [[xs|e] h2] eqn:E2; intros [= <- <-];
        (eapply evolves_trans; [by eapply Hn | by eapply IH]).
    + intros [= <- <-]. by eapply Hn.
Qed.

Lemma next_depth_evolves d : ∀ it h r h',
  next_depth d it h = (r, h') → evolves h h'.
Proof.
  induction d as [|d IH]; simpl; intros it h r h'.
  - intros [= <- <-]. apply evolves_refl.
  - destruct (h !! it) as [[items|s pos|iters|c attrs]|] eqn:E;
      try (intros [= <- <-]; apply evolves_refl).
    + by apply seq_next_evolves.
    + destruct iters as [|i rest]; [intros [= <- <-]; apply evolves_refl|].
      destruct (zip_round (next_depth d) (i :: rest) h) as [[xs|e] h1] eqn:E1;
        intros [= <- <-]; by eapply zip_round_evolves.
Qed.

Lemma py_next_evolves it h r h' : py_next it h = (r, h') → evolves h h'.
Proof. apply next_depth_evolves. Qed.

Lemma collect_evolves fuel : ∀ it h r h',
  collect fuel it h = Some (r, h') → evolves h h'.
Proof.
  induction fuel as [|fuel IH]; simpl; intros it h r h'; [done|].
  destruct (py_next it h) as [[x|e] h1] eqn:E1.
  - destruct (collect fuel it h1) as [[[xs|e] h2]|] eqn:E2; intros [= <- <-];
      (eapply evolves_trans; [by eapply py_next_evolves | by eapply IH]).
  - destruct e; intros [= <- <-]; by eapply py_next_evolves.
Qed.

Lemma collect_mono fuel : ∀ fuel' it h r,
  collect fuel it h = Some r → fuel ≤ fuel' → collect fuel' it h = Some r.
Proof.
  induction fuel as [|fuel IH]; simpl; intros fuel' it h r; [done|].
  intros H Hle. destruct fuel' as [|fuel']; [lia|]. simpl.
  destruct (py_next it h) as [[x|e] h1]; [|done].
  destruct (collect fuel it h1) as [r1|] eqn:E.
  - rewrite (IH fuel' it h1 r1 E) by lia. done.
  - done.
Qed.

Lemma pure_evolving {A} (m : M A) : pure m → evolving m.
Proof. intros Hp h r h' H. rewrite (Hp _ _ _ H). apply evolves_refl. Qed.

Lemma evolving_bind {A B} (m : M A) (k : A → M B) :
  evolving m → (∀ a, evolving (k a)) → evolving (m ≫= k).
Proof.
  intros Hm Hk h r h'. unfold mbind, M_bind, bind.
  destruct (m h) as [[a|e] h1] eqn:E.
  - intros H. eapply evolves_trans; [by eapply Hm | by eapply Hk].
  - intros [= <- <-]. by eapply Hm.
Qed.

Lemma pure_ret {A} (a : A) : pure (mret a).
Proof. by intros h r h' [= <- <-]. Qed.

Lemma pure_raise {A} e : pure (@raise A e).
Proof. by intros h r h' [= <- <-]. Qed.

Lemma pure_isinstance v d : pure (isinstance v d).
Proof.
  intros h r h'. unfold isinstance.
  destruct v; try by intros [= <- <-].
  destruct (h !! l) as [[]|]; by intros [= <- <-].
Qed.

Lemma pure_getattr v name : pure (getattr v name).
Proof.
  intros h r h'. unfold getattr.
  destruct v; try by intros [= <- <-].
  destruct (h !! l) as [[| | |c attrs]|]; try by intros [= <- <-].
  destruct (attrs !! name); by intros [= <- <-].
Qed.

Lemma list_method_spec v h r h' :
  list_method v h = (r, h') →
  h' = h ∧ ∀ l, r = Ok l → v = VRef l ∧ ∃ items, h !! l = Some (OList items).
Proof.
  unfold list_method. destruct v; try (intros [= <- <-]; split; [done|]; by intros ? [=]).
  destruct (h !! l) as [[]|] eqn:E; intros [= <- <-]; (split; [done|]);
    intros ? [=]; subst; eauto.
Qed.

Lemma evolving_alloc o : evolving (alloc o).
Proof. intros h r h' [= <- <-]. apply evolves_alloc. Qed.

Lemma pure_seq_items v : pure (seq_items v).
Proof.
  intros h r h'. unfold seq_items.
  destruct v; try by intros [= <- <-].
  destruct (h !! l) as [[]|]; by intros [= <- <-].
Qed.

Lemma evolving_list_add l more : evolving (list_add l more).
Proof.
  intros h r h'. unfold list_add.
  destruct (h !! l) as [[]|] eqn:E; intros [= <- <-]; try apply evolves_refl.
  eapply evolves_insert; [done | simpl; eauto].
Qed.

Lemma pure_list_method v : pure (list_method v).
Proof. intros h r h' H. by apply list_method_spec in H as [-> _]. Qed.

(** The facts about single operations, for [auto]: a method body is a chain
    of binds over them. *)
Create HintDb heap.
#[local] Hint Resolve pure_ret pure_raise pure_isinstance pure_getattr
  pure_seq_items pure_list_method : heap.
#[local] Hint Resolve evolves_refl evolves_alloc evolving_alloc
  evolving_list_add : heap.
#[local] Hint Extern 3 (evolving _) => apply pure_evolving : heap.
#[local] Hint Extern 1 (evolving (_ ≫= _)) =>
  apply evolving_bind; [| intros ?] : heap.

Lemma evolving_list_extend l other : evolving (list_extend l other).
Proof. unfold list_extend. auto with heap. Qed.

Lemma evolving_py_list args : evolving (py_list args).
Proof. unfold py_list. auto with heap. Qed.

#[local] Hint Resolve evolving_list_extend evolving_py_list : heap.

Lemma evolving_add_terms self terms :
  evolving (MinMaxGoal_add_terms self terms).
Proof. unfold MinMaxGoal_add_terms. auto 8 with heap. Qed.

Lemma evolving_add_soft_clause self c w :
  evolving (MaxSMTGoal_add_soft_clause self c w).
Proof. unfold MaxSMTGoal_add_soft_clause, list_append. auto 8 with heap. Qed.

Lemma evolving_arity0 f self args :
  (∀ s, evolving (f s)) → evolving (arity0 f self args).
Proof. intros H. destruct args; [apply H | apply pure_evolving, pure_raise]. Qed.

Lemma evolving_arity2 f self args :
  (∀ s a b, evolving (f s a b)) → evolving (arity2 f self args).
Proof.
  intros H. destruct args as [|a [|b [|]]]; try apply H;
    apply pure_evolving, pure_raise.
Qed.

Lemma find_method_evolving py c name f :
  find_method py c name = Some f → name ≠ "__init__" →
  ∀ self args, evolving (f self args).
Proof.
  intros Hf Hne self args. revert Hf.
  destruct c; unfold find_method, mro, resolve, class_dict, assoc;
    repeat (match goal with |- context [String.eqb ?k name] =>
        destruct (String.eqb_spec k name) as [<- | ?] end);
    try done; intros [= <-];
    try (apply evolving_arity0; intros s;
         unfold Goal_is_maximization_goal, Goal_is_minimization_goal,
           Goal_is_minmax_goal, Goal_is_maxmin_goal, Goal_is_maxsmt_goal,
           Goal_is_simple_goal, MaximizationGoal_is_simple_goal,
           MinimizationGoal_is_simple_goal, MinMaxGoal_is_simple_goal,
           MaxMinGoal_is_simple_goal, MaximizationGoal_term,
           MinimizationGoal_term, MinMaxGoal_terms, MaxMinGoal_terms;
         by auto with heap).
  - apply evolving_add_terms.
  - apply evolving_add_terms.
  - apply evolving_arity2, evolving_add_soft_clause.
Qed.

Lemma call_method_evolving py recv name args :
  name ≠ "__init__" → evolving (call_method py recv name args).
Proof.
  intros Hne h r h'. unfold call_method.
  destruct recv; try (intros [= <- <-]; apply evolves_refl).
  destruct (h !! l) as [[| | |c attrs]|]; try (intros [= <- <-]; apply evolves_refl).
  destruct (attrs !! name); [intros [= <- <-]; apply evolves_refl|].
  destruct (find_method py c name) as [f|] eqn:E; [| intros [= <- <-]; apply evolves_refl].
  by eapply find_method_evolving.
Qed.

Lemma evolving_py_iter v : evolving (py_iter v).
Proof.
  intros h r h'. unfold py_iter, alloc.
  destruct v; try (intros [= <- <-]; first [apply evolves_alloc | apply evolves_refl]).
  destruct (h !! l) as [[]|]; intros [= <- <-];
    first [apply evolves_alloc | apply evolves_refl].
Qed.

Lemma iterate_evolves fuel v h r h' : iterate fuel v h = Some (r, h') → evolves h h'.
Proof.
  unfold iterate. destruct (py_iter v h) as [[it|e] h1] eqn:E.
  - intros H. eapply evolves_trans; [by eapply evolving_py_iter | by eapply collect_evolves].
  - intros [= <- <-]. by eapply evolving_py_iter.
Qed.

Lemma soft_pairs_evolves fuel g h r h' : soft_pairs fuel g h = Some (r, h') → evolves h h'.
Proof.
  unfold soft_pairs. destruct (getattr g "soft" h) as [[s|e] h1] eqn:E.
  - apply pure_getattr in E as ->. apply iterate_evolves.
  - intros [= <- <-]. apply pure_getattr in E as ->. apply evolves_refl.
Qed.

Lemma run_op_evolves py o h : public o = true → evolves h (run_op py o h).
Proof.
  destruct o as [recv name args | g fuel | l items]; simpl; intros Hp.
  - destruct (call_method py recv name args h) as [r h'] eqn:E. simpl.
    eapply call_method_evolving; [| done].
    intros ->. done.
  - destruct (soft_pairs fuel g h) as [[r h']|] eqn:E; [| apply evolves_refl].
    by eapply soft_pairs_evolves.
  - destruct (h !! l) as [[]|] eqn:E; try apply evolves_refl.
    eapply evolves_insert; [done | simpl; eauto].
Qed.

Lemma run_ops_evolves py ops : ∀ h,
  forallb public ops = true → evolves h (run_ops py ops h).
Proof.
  induction ops as [|o ops IH]; simpl; intros h Hp; [apply evolves_refl|].
  apply andb_prop in Hp as [Ho Hops].
  eapply evolves_trans; [by apply run_op_evolves | by apply IH].
Qed.

(** What [evolves] keeps of an instance and of a list. *)
Lemma evolves_instance h h' l c attrs :
  evolves h h' → h !! l = Some (OInstance c attrs) → h' !! l = Some (OInstance c attrs).
Proof. intros He Hl. destruct (He _ _ Hl) as (o' & Ho' & Hc). simpl in Hc. by subst. Qed.

Lemma evolves_list h h' l items :
  evolves h h' → h !! l = Some (OList items) → ∃ items', h' !! l = Some (OList items').
Proof. intros He Hl. destruct (He _ _ Hl) as (o' & Ho' & [items' ->]). eauto. Qed.

Lemma lookup_fresh (h : list obj) o : (h ++ [o]) !! length h = Some o.
Proof. by rewrite lookup_app_r, Nat.sub_diag. Qed.

Lemma insert_fresh (h : list obj) o o' : <[length h := o']> (h ++ [o]) = h ++ [o'].
Proof. by rewrite insert_app_r_alt, Nat.sub_diag. Qed.

Lemma setattr_fresh h c attrs name x :
  setattr (VRef (length h)) name x (h ++ [OInstance c attrs])
  = (Ok tt, h ++ [OInstance c (<[name := x]> attrs)]).
Proof. unfold setattr. by rewrite lookup_fresh, insert_fresh. Qed.

(** ** Construction *)

Lemma construct_Goal py h :
  construct py Goal [] h = (Ok (VRef (length h)), h ++ [OInstance Goal ∅]).
Proof. reflexivity. Qed.

Lemma construct_simple py c f h :
  c = MaximizationGoal ∨ c = MinimizationGoal →
  construct py c [f] h
  = (Ok (VRef (length h)), h ++ [OInstance c {["formula" := f]}]).
Proof.
  intros [-> | ->]; unfold construct, mbind, M_bind, bind; simpl;
    unfold MaximizationGoal___init__, MinimizationGoal___init__, mbind, M_bind, bind;
    by rewrite setattr_fresh.
Qed.

Lemma construct_aggregate py c t h :
  c = MinMaxGoal ∨ c = MaxMinGoal →
  construct py c [t] h
  = (Ok (VRef (length h)), h ++ [OInstance c {["term" := t]}]).
Proof.
  intros [-> | ->]; unfold construct, mbind, M_bind, bind; simpl;
    unfold MinMaxGoal___init__, MaxMinGoal___init__, mbind, M_bind, bind;
    by rewrite setattr_fresh.
Qed.

Lemma data_only_empty : data_only ∅.
Proof. intros name [x Hx]. by rewrite lookup_empty in Hx. Qed.

Lemma data_only_insert name x attrs :
  name ∈ data_names → data_only attrs → data_only (<[name := x]> attrs).
Proof.
  intros Hn Ha k [y Hy]. destruct (decide (name = k)) as [<- | Hne]; [done|].
  rewrite lookup_insert_ne in Hy by done. apply Ha. eauto.
Qed.

Lemma evolving_zip_to_list z : evolving (zip_to_list z).
Proof.
  intros h r h'. unfold zip_to_list.
  destruct (collect (S (heap_weight h)) z h) as [[[pairs|e] h1]|] eqn:E;
    intros [= <- <-].
  - eapply evolves_trans; [by eapply collect_evolves | apply evolves_alloc].
  - by eapply collect_evolves.
  - apply evolves_refl.
Qed.

Lemma evolving_py_zip py a b : evolving (py_zip py a b).
Proof.
  apply evolving_bind; [apply evolving_py_iter|]. intros ia.
  apply evolving_bind; [apply evolving_py_iter|]. intros ib.
  apply evolving_bind; [apply evolving_alloc|]. intros z.
  destruct py; [apply evolving_zip_to_list | apply pure_evolving, pure_ret].
Qed.

Lemma construct_instance py c args h g h1 :
  construct py c args h = (Ok g, h1) →
  g = VRef (length h) ∧
  ∃ attrs, h1 !! length h = Some (OInstance c attrs) ∧ data_only attrs.
Proof.
  unfold construct, mbind, M_bind, bind, alloc.
  destruct c; simpl.
  1,2: destruct args; simpl; [| done]; intros [= <- <-]; split; [done|];
       exists ∅; by rewrite lookup_fresh; split; [| apply data_only_empty].
  1,2,3,4: destruct args as [|a [|]]; simpl; try done;
       unfold MaximizationGoal___init__, MinimizationGoal___init__,
         MinMaxGoal___init__, MaxMinGoal___init__, mbind, M_bind, bind;
       rewrite setattr_fresh; simpl; intros [= <- <-]; split; [done|];
       eexists; rewrite lookup_fresh; (split; [done|]);
       (apply data_only_insert; [| apply data_only_empty]); compute_done.
  destruct args as [|a [|b [|]]]; simpl; try done.
  unfold MaxSMTGoal___init__, mbind, M_bind, bind.
  destruct (py_zip py a b (h ++ [OInstance MaxSMTGoal ∅])) as [[z|e] h2] eqn:E; [|done].
  apply evolving_py_zip in E.
  pose proof (evolves_instance _ _ _ _ _ E (lookup_fresh h _)) as Hi.
  unfold setattr. rewrite Hi. simpl. intros [= <- <-]. split; [done|].
  eexists. rewrite list_lookup_insert_eq by by eapply lookup_lt_Some.
  split; [done|]. apply data_only_insert; [| apply data_only_empty]. compute_done.
Qed.

Ltac cases_in H :=
  repeat (apply elem_of_cons in H as [H | H]); [.. | by apply elem_of_nil in H].

Lemma instance_after_ops py c args h g h1 ops :
  construct py c args h = (Ok g, h1) → forallb public ops = true →
  ∃ l attrs, g = VRef l ∧ data_only attrs ∧
    h1 !! l = Some (OInstance c attrs) ∧
    run_ops py ops h1 !! l = Some (OInstance c attrs).
Proof.
  intros Hc Hp. apply construct_instance in Hc as (-> & attrs & Hl & Hd).
  exists (length h), attrs. repeat split; try done.
  eapply evolves_instance; [by apply run_ops_evolves | done].
Qed.

Lemma not_data name attrs :
  data_only attrs → name ∉ data_names → attrs !! name = None.
Proof.
  intros Hd Hn. destruct (attrs !! name) eqn:E; [|done].
  exfalso. apply Hn, Hd. by rewrite E.
Qed.

Lemma call_kind_predicate py h l c attrs p k :
  h !! l = Some (OInstance c attrs) → data_only attrs → c ≠ Object →
  (p, k) ∈ kind_predicates →
  call_method py (VRef l) p [] h = (Ok (VBool (issubclass c k)), h).
Proof.
  intros Hl Hd Hc Hp. unfold call_method. rewrite Hl.
  cases_in Hp; simplify_eq;
    (rewrite (not_data _ _ Hd) by (compute_done));
    destruct c; try done; simpl;
    unfold Goal_is_maximization_goal, Goal_is_minimization_goal,
      Goal_is_minmax_goal, Goal_is_maxmin_goal, Goal_is_maxsmt_goal, isinstance;
    by rewrite Hl.
Qed.

Lemma call_is_simple_goal py h l c attrs :
  h !! l = Some (OInstance c attrs) → data_only attrs → c ≠ Object →
  call_method py (VRef l) "is_simple_goal" [] h
  = (Ok (VBool (bool_decide (c ∈ simple_goals))), h).
Proof.
  intros Hl Hd Hc. unfold call_method. rewrite Hl.
  rewrite (not_data _ _ Hd) by (compute_done).
  by destruct c.
Qed.

(** Claim C4.  Take an instance of one of the five concrete goal classes,
    as its constructor returns it, and let the client run any public
    operations.  Then each kind predicate returns [True] exactly when the
    class it tests is the class of the instance, so the one predicate of
    its variant is true and the other four are false; and exactly one of
    the five predicates tests that class. *)
Theorem kind_predicates_exclusive py c args h g h1 ops p k :
  c ∈ concrete_goals →
  construct py c args h = (Ok g, h1) →
  forallb public ops = true →
  (p, k) ∈ kind_predicates →
  let h2 := run_ops py ops h1 in
  call_method py g p [] h2 = (Ok (VBool (bool_decide (k = c))), h2)
  ∧ length (filter (λ pk, pk.2 = c) kind_predicates) = 1.
Proof.
  intros Hc Hcons Hops Hp h2.
  destruct (instance_after_ops _ _ _ _ _ _ _ Hcons Hops)
    as (l & attrs & -> & Hd & _ & Hl).
  split.
  - subst h2. rewrite (call_kind_predicate py _ _ _ _ p k Hl Hd);
      [| by cases_in Hc; subst | done].
    do 3 f_equal. cases_in Hc; subst c; cases_in Hp; by simplify_eq.
  - cases_in Hc; by subst c.
Qed.

Lemma kind_predicates_exclusive_witness :
  let h := [OList [VTerm 1; VTerm 2]] in
  let g := VRef 1 in
  let h1 := run_ops Py3 [Call g "add_terms" [VTerm 3]; Call g "is_simple_goal" []]
              (snd (construct Py3 MinMaxGoal [VRef 0] h)) in
  call_method Py3 g "is_minmax_goal" [] h1 = (Ok (VBool true), h1)
  ∧ call_method Py3 g "is_maxsmt_goal" [] h1 = (Ok (VBool false), h1).
Proof.
  split.
  - refine (proj1 (kind_predicates_exclusive Py3 MinMaxGoal [VRef 0] [OList [VTerm 1; VTerm 2]]
      (VRef 1) _ [Call (VRef 1) "add_terms" [VTerm 3]; Call (VRef 1) "is_simple_goal" []]
      "is_minmax_goal" MinMaxGoal _ _ _ _)).
    + compute_done.
    + reflexivity.
    + reflexivity.
    + compute_done.
  - refine (proj1 (kind_predicates_exclusive Py3 MinMaxGoal [VRef 0] [OList [VTerm 1; VTerm 2]]
      (VRef 1) _ [Call (VRef 1) "add_terms" [VTerm 3]; Call (VRef 1) "is_simple_goal" []]
      "is_maxsmt_goal" MaxSMTGoal _ _ _ _)).
    + compute_done.
    + reflexivity.
    + reflexivity.
    + compute_done.
Defined.

Lemma call_term py h l c f :
  c ∈ single_term_goals →
  h !! l = Some (OInstance c {["formula" := f]}) →
  call_method py (VRef l) "term" [] h = (Ok f, h).
Proof.
  intros Hc Hl. unfold call_method. rewrite Hl.
  rewrite lookup_singleton_ne by done.
  cases_in Hc; subst c; simpl;
    unfold MaximizationGoal_term, MinimizationGoal_term, getattr;
    by rewrite Hl, lookup_singleton_eq.
Qed.

Lemma call_terms py h l c t :
  c ∈ aggregate_goals →
  h !! l = Some (OInstance c {["term" := t]}) →
  call_method py (VRef l) "terms" [] h = (Ok t, h).
Proof.
  intros Hc Hl. unfold call_method. rewrite Hl.
  rewrite lookup_singleton_ne by done.
  cases_in Hc; subst c; simpl;
    unfold MinMaxGoal_terms, MaxMinGoal_terms, getattr;
    by rewrite Hl, lookup_singleton_eq.
Qed.

Lemma call_add_terms py h l c lT T E :
  c ∈ aggregate_goals →
  h !! l = Some (OInstance c {["term" := VRef lT]}) →
  h !! lT = Some (OList T) →
  call_method py (VRef l) "add_terms" E h
  = (Ok VNone, <[lT := OList (T ++ E)]> (h ++ [OList E])).
Proof.
  intros Hc Hl HT. unfold call_method. rewrite Hl.
  rewrite lookup_singleton_ne by done.
  cases_in Hc; subst c; simpl;
    unfold MinMaxGoal_add_terms, MaxMinGoal_add_terms, mbind, M_bind, bind,
      getattr, list_method, py_list, alloc, list_extend, seq_items, list_add;
    rewrite Hl, lookup_singleton_eq, HT; simpl;
    unfold mbind, M_bind, bind; cbv beta;
    by rewrite lookup_fresh, (lookup_app_l_Some _ _ _ _ HT).
Qed.

Lemma run_ops_cons py o ops h :
  run_ops py (o :: ops) h = run_ops py ops (run_op py o h).
Proof. reflexivity. Qed.

Lemma run_ops_replicate_call py recv name args r h n :
  call_method py recv name args h = (r, h) →
  run_ops py (replicate n (Call recv name args)) h = h.
Proof.
  intros H. induction n as [|n IH]; [done|].
  change (replicate (S n) (Call recv name args))
    with (Call recv name args :: replicate n (Call recv name args)).
  rewrite run_ops_cons.
  replace (run_op py (Call recv name args) h) with h; [done|].
  unfold run_op. by rewrite H.
Qed.

(** Claim C7.  [MaximizationGoal(f)] and [MinimizationGoal(f)] allocate
    the instance and nothing else, [term()] returns the argument [f] itself
    (the same value, the same reference when [f] is one), and it still does
    after any sequence of public operations on any object. *)
Theorem simple_goal_term_is_argument py c f h ops :
  c ∈ single_term_goals →
  forallb public ops = true →
  let g := VRef (length h) in
  let h1 := h ++ [OInstance c {["formula" := f]}] in
  let h2 := run_ops py ops h1 in
  construct py c [f] h = (Ok g, h1)
  ∧ call_method py g "term" [] h1 = (Ok f, h1)
  ∧ call_method py g "term" [] h2 = (Ok f, h2).
Proof.
  intros Hc Hops g h1 h2.
  assert (construct py c [f] h = (Ok g, h1)) as Hcons.
  { apply construct_simple. cases_in Hc; auto. }
  split; [done|]. split.
  - apply (call_term py h1 _ c f Hc), lookup_fresh.
  - apply (call_term py h2 _ c f Hc).
    eapply evolves_instance; [by apply run_ops_evolves | apply lookup_fresh].
Qed.

Lemma simple_goal_term_is_argument_witness :
  let h := [OList [VTerm 7]] in
  let g := VRef 1 in
  let ops := [Call g "is_simple_goal" []; Call g "term" [VInt 0]; Read g 5;
              Mutate 0 []] in
  forallb public ops = true
  ∧ call_method Py3 g "term" []
      (run_ops Py3 ops (h ++ [OInstance MinimizationGoal {["formula" := VTerm 4]}]))
    = (Ok (VTerm 4),
       run_ops Py3 ops (h ++ [OInstance MinimizationGoal {["formula" := VTerm 4]}])).
Proof.
  split; [reflexivity|].
  refine (proj2 (proj2 (simple_goal_term_is_argument Py3 MinimizationGoal (VTerm 4)
    [OList [VTerm 7]] _ _ _))); [compute_done | reflexivity].
Defined.

(** A direct call of [__init__] on an existing goal stores the new term:
    it is the one call [public] leaves out. *)
Example reinitialisation_replaces_the_term :
  let h1 := [OInstance MaximizationGoal {["formula" := VTerm 1]}] in
  let h2 := snd (call_method Py3 (VRef 0) "__init__" [VTerm 2] h1) in
  call_method Py3 (VRef 0) "term" [] h2 = (Ok (VTerm 2), h2).
Proof. vm_compute; reflexivity. Qed.




(** [add_terms] needs the stored sequence to be a list: a tuple has no
    [extend]. *)
Example add_terms_on_tuple_raises :
  (g ← construct Py3 MinMaxGoal [VTuple [VTerm 1]];
   call_method Py3 g "add_terms" [VTerm 2]) []
  = (Raise AttributeError, [OInstance MinMaxGoal {["term" := VTuple [VTerm 1]]}]).
Proof. vm_compute; reflexivity. Qed.

(** Claim C10.  [MinMaxGoal(T)] and [MaxMinGoal(T)] keep the caller's list:
    the constructor allocates the instance only and stores the reference it
    was given; [terms()] returns that very reference, before and after
    [add_terms]; and [add_terms(E...)] changes the list cell in place, so
    that the reference the caller holds, and any result of [terms()]
    obtained earlier, denote [T] followed by [E] afterwards. *)
Theorem terms_is_the_callers_list py c h lT T E :
  c ∈ aggregate_goals →
  h !! lT = Some (OList T) →
  let g := VRef (length h) in
  let h1 := h ++ [OInstance c {["term" := VRef lT]}] in
  let h2 := <[lT := OList (T ++ E)]> (h1 ++ [OList E]) in
  construct py c [VRef lT] h = (Ok g, h1)
  ∧ call_method py g "terms" [] h1 = (Ok (VRef lT), h1)
  ∧ deref h1 (VRef lT) = Some T
  ∧ call_method py g "add_terms" E h1 = (Ok VNone, h2)
  ∧ call_method py g "terms" [] h2 = (Ok (VRef lT), h2)
  ∧ deref h2 (VRef lT) = Some (T ++ E).
Proof.
  intros Hc HT g h1 h2.
  assert (h1 !! length h = Some (OInstance c {["term" := VRef lT]})) as Hl
    by apply lookup_fresh.
  assert (h1 !! lT = Some (OList T)) as HT1 by by apply lookup_app_l_Some.
  assert (lT ≠ length h) as Hne by (pose proof (lookup_lt_Some _ _ _ HT); lia).
  assert (h2 !! length h = Some (OInstance c {["term" := VRef lT]})) as Hl2.
  { unfold h2. rewrite list_lookup_insert_ne by done. by apply lookup_app_l_Some. }
  assert (h2 !! lT = Some (OList (T ++ E))) as HT2.
  { unfold h2. apply list_lookup_insert_eq. rewrite length_app.
    apply lookup_lt_Some in HT1. lia. }
  repeat split.
  - apply construct_aggregate. cases_in Hc; auto.
  - by apply (call_terms py h1 _ c).
  - simpl. by rewrite HT1.
  - by apply (call_add_terms py h1 _ c lT T E Hc).
  - by apply (call_terms py h2 _ c).
  - simpl. by rewrite HT2.
Qed.

Lemma terms_is_the_callers_list_witness :
  let h := [OList [VTerm 1]] in
  let g := VRef 1 in
  let h2 := snd (call_method Py3 g "add_terms" [VTerm 2]
                   (snd (construct Py3 MinMaxGoal [VRef 0] h))) in
  call_method Py3 g "terms" [] h2 = (Ok (VRef 0), h2)
  ∧ deref h2 (VRef 0) = Some [VTerm 1; VTerm 2].
Proof.
  pose proof (terms_is_the_callers_list Py3 MinMaxGoal [OList [VTerm 1]] 0
                [VTerm 1] [VTerm 2]) as H.
  destruct H as (_ & _ & _ & _ & H5 & H6); [compute_done | reflexivity |].
  split; [exact H5 | exact H6].
Defined.

(** The other direction: what the caller does to its list shows through
    [terms()]. *)
Example callers_change_is_seen_by_terms :
  let h1 := snd (construct Py3 MinMaxGoal [VRef 0] [OList [VTerm 1]]) in
  let h2 := run_ops Py3 [Mutate 0 [VTerm 1; VTerm 9]] h1 in
  call_method Py3 (VRef 1) "terms" [] h2 = (Ok (VRef 0), h2)
  ∧ deref h2 (VRef 0) = Some [VTerm 1; VTerm 9].
Proof. split; vm_compute; reflexivity. Qed.

(** Claim C5.  [is_simple_goal()] returns [True] on instances of the four
    classes that override it (MaximizationGoal, MinimizationGoal,
    MinMaxGoal, MaxMinGoal) and [False] on instances of MaxSMTGoal and of
    Goal itself; a class that does not define [is_simple_goal] gets the
    default of the root, [False]. *)
Theorem is_simple_goal_by_class py c args h g h1 ops :
  c ∈ Goal :: concrete_goals →
  construct py c args h = (Ok g, h1) →
  forallb public ops = true →
  let h2 := run_ops py ops h1 in
  call_method py g "is_simple_goal" [] h2
  = (Ok (VBool (bool_decide (c ∈ simple_goals))), h2)
  ∧ (c = MaxSMTGoal → call_method py g "is_simple_goal" [] h2 = (Ok (VBool false), h2))
  ∧ (assoc "is_simple_goal" (class_dict py c) = None →
     call_method py g "is_simple_goal" [] h2 = (Ok (VBool false), h2)).
Proof.
  intros Hc Hcons Hops h2.
  destruct (instance_after_ops _ _ _ _ _ _ _ Hcons Hops)
    as (l & attrs & -> & Hd & _ & Hl).
  assert (c ≠ Object) as Hobj by (cases_in Hc; by subst).
  subst h2. rewrite (call_is_simple_goal py _ _ _ _ Hl Hd Hobj).
  split; [done|]. split.
  - by intros ->.
  - cases_in Hc; by subst c.
Qed.

Lemma is_simple_goal_by_class_witness :
  let h := [OList [VTerm 1; VTerm 2]; OList [VInt 5; VInt 6]] in
  let h2 := run_ops Py3 [Call (VRef 2) "add_soft_clause" [VTerm 3; VInt 7]]
              (snd (construct Py3 MaxSMTGoal [VRef 0; VRef 1] h)) in
  call_method Py3 (VRef 2) "is_simple_goal" [] h2 = (Ok (VBool false), h2).
Proof.
  refine (proj1 (is_simple_goal_by_class Py3 MaxSMTGoal [VRef 0; VRef 1]
    [OList [VTerm 1; VTerm 2]; OList [VInt 5; VInt 6]] (VRef 2) _
    [Call (VRef 2) "add_soft_clause" [VTerm 3; VInt 7]] _ _ _));
    [compute_done | reflexivity | reflexivity].
Defined.

(** Claim C9.  [Goal()] succeeds and returns an instance of the root class;
    on that instance the five kind predicates and [is_simple_goal] all
    return [False], also after any public operations. *)
Theorem bare_Goal_has_no_kind py h ops p :
  forallb public ops = true →
  p ∈ "is_simple_goal" :: kind_predicates.*1 →
  let g := VRef (length h) in
  let h1 := h ++ [OInstance Goal ∅] in
  let h2 := run_ops py ops h1 in
  construct py Goal [] h = (Ok g, h1)
  ∧ call_method py g p [] h2 = (Ok (VBool false), h2).
Proof.
  intros Hops Hp g h1 h2. split; [done|].
  assert (h2 !! length h = Some (OInstance Goal ∅)) as Hl.
  { eapply evolves_instance; [by apply run_ops_evolves | apply lookup_fresh]. }
  subst g. apply elem_of_cons in Hp as [-> | Hp].
  - by rewrite (call_is_simple_goal py _ _ _ _ Hl data_only_empty).
  - apply list_elem_of_fmap in Hp as ([p' k] & -> & Hp).
    change ((p', k).1) with p'.
    rewrite (call_kind_predicate py _ _ _ _ p' k Hl data_only_empty); [| done | done].
    cases_in Hp; by simplify_eq.
Qed.

Lemma bare_Goal_has_no_kind_witness :
  let h1 := [OInstance Goal ∅] in
  let h2 := run_ops Py3 [Call (VRef 0) "is_maxsmt_goal" []] h1 in
  construct Py3 Goal [] [] = (Ok (VRef 0), h1)
  ∧ call_method Py3 (VRef 0) "is_minmax_goal" [] h2 = (Ok (VBool false), h2).
Proof.
  apply (bare_Goal_has_no_kind Py3 [] [Call (VRef 0) "is_maxsmt_goal" []]
           "is_minmax_goal"); [reflexivity | compute_done].
Defined.

(** ** The pairing of MaxSMTGoal *)

Lemma src_items_insert_iter h i s p s' p' src :
  h !! i = Some (OSeqIter s p) →
  src_items (<[i := OSeqIter s' p']> h) src = src_items h src.
Proof.
  intros Hi. destruct src as [l|vs]; simpl; [|done].
  destruct (decide (i = l)) as [<- | Hne].
  - rewrite list_lookup_insert_eq by by eapply lookup_lt_Some. by rewrite Hi.
  - by rewrite list_lookup_insert_ne.
Qed.

Lemma src_ok_insert_iter h i s p s' p' src :
  h !! i = Some (OSeqIter s p) → src_ok h src →
  src_ok (<[i := OSeqIter s' p']> h) src.
Proof.
  intros Hi. destruct src as [[l|vs]|]; simpl; try done.
  intros [items Hl]. exists items.
  rewrite list_lookup_insert_ne; [done|]. intros ->. congruence.
Qed.

Lemma rest_insert_iter h i s p s' p' src pos :
  h !! i = Some (OSeqIter s p) →
  rest (<[i := OSeqIter s' p']> h) src pos = rest h src pos.
Proof.
  intros Hi. destruct src as [src|]; simpl; [|done].
  by erewrite src_items_insert_iter.
Qed.

(** One step of a sequence iterator, in terms of what is left of it. *)
Lemma seq_next_rest h it s pos :
  h !! it = Some (OSeqIter s pos) → src_ok h s →
  match rest h s pos with
  | [] => ∃ h', seq_next it s pos h = (Raise StopIteration, h')
                ∧ (h' = h ∨ h' = <[it := OSeqIter None pos]> h)
  | x :: xs =>
      seq_next it s pos h = (Ok x, <[it := OSeqIter s (S pos)]> h)
      ∧ rest h s (S pos) = xs
  end.
Proof.
  intros Hit Hok. unfold rest, seq_next.
  destruct s as [s|]; [| eauto].
  destruct (src_items h s) as [items|] eqn:Es.
  - destruct (items !! pos) as [x|] eqn:Ex.
    + rewrite (drop_S _ _ _ Ex). done.
    + rewrite drop_ge by by apply lookup_ge_None. eauto.
  - destruct s as [l|vs]; simpl in *; [|done].
    destruct Hok as [items Hl]. by rewrite Hl in Es.
Qed.

Lemma frame_refl ia ib h : frame ia ib h h.
Proof. by split. Qed.

Lemma frame_trans ia ib h1 h2 h3 :
  frame ia ib h1 h2 → frame ia ib h2 h3 → frame ia ib h1 h3.
Proof.
  intros [L1 F1] [L2 F2]. split; [congruence|].
  intros l Ha Hb. rewrite F2, F1; done.
Qed.

Lemma frame_insert_l ia ib h o : frame ia ib h (<[ia := o]> h).
Proof.
  split; [apply length_insert|]. intros l Ha Hb. by rewrite list_lookup_insert_ne.
Qed.

Lemma frame_insert_r ia ib h o : frame ia ib h (<[ib := o]> h).
Proof.
  split; [apply length_insert|]. intros l Ha Hb. by rewrite list_lookup_insert_ne.
Qed.

Lemma zip2_depth h z ia ib : zip2 h z ia ib → ∃ d, length h = S (S d).
Proof.
  intros (Hne & Hz & sa & pa & sb & pb & Ha & Hb & _).
  apply lookup_lt_Some in Ha, Hb. exists (length h - 2). lia.
Qed.

Lemma next_depth_seq d h it s pos :
  h !! it = Some (OSeqIter s pos) →
  next_depth (S d) it h = seq_next it s pos h.
Proof. intros H. simpl. by rewrite H. Qed.

Lemma next_depth_zip d h z i iters :
  h !! z = Some (OZip (i :: iters)) →
  next_depth (S d) z h
  = match zip_round (next_depth d) (i :: iters) h with
    | (Ok xs, h1) => (Ok (VTuple xs), h1)
    | (Raise e, h1) => (Raise e, h1)
    end.
Proof. intros H. simpl. by rewrite H. Qed.

Lemma zip_round_cons nxt i iters h :
  zip_round nxt (i :: iters) h
  = match nxt i h with
    | (Ok x, h1) =>
        match zip_round nxt iters h1 with
        | (Ok xs, h2) => (Ok (x :: xs), h2)
        | (Raise e, h2) => (Raise e, h2)
        end
    | (Raise e, h1) => (Raise e, h1)
    end.
Proof. reflexivity. Qed.

Lemma py_next_zip2 h z ia ib :
  zip2 h z ia ib →
  ∃ r h', py_next z h = (r, h') ∧ zip2 h' z ia ib ∧ frame ia ib h h' ∧
    match iter_rest h ia, iter_rest h ib with
    | x :: xs, y :: ys =>
        r = Ok (soft_pair x y) ∧ iter_rest h' ia = xs ∧ iter_rest h' ib = ys
    | _, _ =>
        r = Raise StopIteration ∧ (iter_rest h' ia = [] ∨ iter_rest h' ib = [])
    end.
Proof.
  intros Hz2. destruct (zip2_depth _ _ _ _ Hz2) as [d Hd].
  destruct Hz2 as (Hne & Hz & sa & pa & sb & pb & Ha & Hb & Hoka & Hokb).
  assert (z ≠ ia) as Hza by (intros ->; congruence).
  assert (z ≠ ib) as Hzb by (intros ->; congruence).
  unfold py_next. rewrite Hd, (next_depth_zip _ _ _ _ _ Hz), zip_round_cons.
  rewrite (next_depth_seq d h ia sa pa Ha). unfold iter_rest at 1. rewrite Ha.
  pose proof (seq_next_rest h ia sa pa Ha Hoka) as Hstep.
  destruct (rest h sa pa) as [|x xs] eqn:Era.
  - (* the first iterator stops *)
    destruct Hstep as (h' & -> & Hh'). exists (Raise StopIteration), h'.
    split; [done|]. destruct Hh' as [-> | ->].
    + split; [| split; [apply frame_refl|]].
      * repeat split; try done. by exists sa, pa, sb, pb.
      * split; [done|]. left. unfold iter_rest. by rewrite Ha.
    + split; [| split; [apply frame_insert_l|]].
      * repeat split; try done.
        { by rewrite list_lookup_insert_ne. }
        exists None, pa, sb, pb.
        rewrite list_lookup_insert_eq by by eapply lookup_lt_Some.
        rewrite list_lookup_insert_ne by done.
        repeat split; try done. by eapply src_ok_insert_iter.
      * split; [done|]. left. unfold iter_rest.
        by rewrite list_lookup_insert_eq by by eapply lookup_lt_Some.
  - destruct Hstep as [-> Hxs].
    set (h1 := <[ia := OSeqIter sa (S pa)]> h).
    assert (h1 !! ib = Some (OSeqIter sb pb)) as Hb1
      by by (unfold h1; rewrite list_lookup_insert_ne).
    assert (h1 !! ia = Some (OSeqIter sa (S pa))) as Ha1.
    { unfold h1. by rewrite list_lookup_insert_eq by by eapply lookup_lt_Some. }
    assert (h1 !! z = Some (OZip [ia; ib])) as Hz1
      by by (unfold h1; rewrite list_lookup_insert_ne).
    assert (src_ok h1 sa) as Hoka1 by by eapply src_ok_insert_iter.
    assert (src_ok h1 sb) as Hokb1 by by eapply src_ok_insert_iter.
    rewrite zip_round_cons, (next_depth_seq d h1 ib sb pb Hb1).
    pose proof (seq_next_rest h1 ib sb pb Hb1 Hokb1) as Hstep.
    unfold iter_rest at 1. rewrite Hb.
    assert (rest h1 sb pb = rest h sb pb) as Erb
      by (unfold h1; by rewrite (rest_insert_iter h ia sa pa _ _ _ _ Ha)).
    rewrite Erb in Hstep.
    destruct (rest h sb pb) as [|y ys] eqn:Erb'.
    + (* the second iterator stops, [x] is lost *)
      destruct Hstep as (h' & -> & Hh'). exists (Raise StopIteration), h'.
      split; [done|]. destruct Hh' as [-> | ->].
      * split; [| split; [apply frame_insert_l|]].
        { repeat split; try done. by exists sa, (S pa), sb, pb. }
        split; [done|]. right. unfold iter_rest. by rewrite Hb1, Erb.
      * split; [| split; [eapply frame_trans; [apply frame_insert_l | apply frame_insert_r]|]].
        { repeat split; try done.
          { by rewrite list_lookup_insert_ne. }
          exists sa, (S pa), None, pb.
          rewrite list_lookup_insert_ne by done.
          rewrite list_lookup_insert_eq by by eapply lookup_lt_Some.
          repeat split; try done. by eapply src_ok_insert_iter. }
        split; [done|]. right. unfold iter_rest.
        by rewrite list_lookup_insert_eq by by eapply lookup_lt_Some.
    + destruct Hstep as [-> Hys].
      exists (Ok (soft_pair x y)), (<[ib := OSeqIter sb (S pb)]> h1).
      split; [done|].
      split; [| split; [eapply frame_trans; [apply frame_insert_l | apply frame_insert_r]|]].
      { repeat split; try done.
        { by rewrite list_lookup_insert_ne. }
        exists sa, (S pa), sb, (S pb).
        rewrite list_lookup_insert_ne by done.
        rewrite list_lookup_insert_eq by by eapply lookup_lt_Some.
        repeat split; try done; by eapply src_ok_insert_iter. }
      split; [done|]. unfold iter_rest.
      rewrite list_lookup_insert_ne by done.
      rewrite list_lookup_insert_eq by by eapply lookup_lt_Some.
      rewrite Ha1. split.
      * rewrite (rest_insert_iter h1 ib sb pb _ _ _ _ Hb1). unfold h1.
        by rewrite (rest_insert_iter h ia sa pa _ _ _ _ Ha).
      * by rewrite (rest_insert_iter h1 ib sb pb _ _ _ _ Hb1).
Qed.

Lemma collect_zip2 n : ∀ h z ia ib fuel,
  zip2 h z ia ib →
  length (zip_with soft_pair (iter_rest h ia) (iter_rest h ib)) ≤ n → n < fuel →
  ∃ h', collect fuel z h
        = Some (Ok (zip_with soft_pair (iter_rest h ia) (iter_rest h ib)), h')
      ∧ zip2 h' z ia ib ∧ frame ia ib h h'
      ∧ (iter_rest h' ia = [] ∨ iter_rest h' ib = []).
Proof.
  induction n as [|n IH]; intros h z ia ib fuel Hz2 Hlen Hfuel;
    (destruct fuel as [|fuel]; [lia|]);
    destruct (py_next_zip2 h z ia ib Hz2) as (r & h1 & Hnext & Hz21 & Hfr & Hcase);
    simpl; rewrite Hnext.
  - destruct (iter_rest h ia) as [|x xs].
    { destruct Hcase as [-> Hstop]. by exists h1. }
    destruct (iter_rest h ib) as [|y ys]; [| simpl in Hlen; lia].
    destruct Hcase as [-> Hstop]. by exists h1.
  - destruct (iter_rest h ia) as [|x xs].
    { destruct Hcase as [-> Hstop]. by exists h1. }
    destruct (iter_rest h ib) as [|y ys].
    { destruct Hcase as [-> Hstop]. by exists h1. }
    destruct Hcase as (-> & Hxs & Hys).
    destruct (IH h1 z ia ib fuel Hz21) as (h' & Hcol & Hz2' & Hfr' & Hstop).
    { rewrite Hxs, Hys. simpl in Hlen. lia. }
    { lia. }
    exists h'. rewrite Hcol, Hxs, Hys. simpl.
    split; [done|]. split; [done|]. split; [by eapply frame_trans | done].
Qed.

Lemma deref_alloc h o v items : deref h v = Some items → deref (h ++ [o]) v = Some items.
Proof.
  destruct v; simpl; try done.
  destruct (h !! l) as [[]|] eqn:E; try done.
  intros [= <-]. by rewrite (lookup_app_l_Some _ _ _ _ E).
Qed.

Lemma py_iter_seq h v items :
  deref h v = Some items →
  py_iter v h = (Ok (length h), h ++ [OSeqIter (Some (seq_source v)) 0])
  ∧ src_items h (seq_source v) = Some items.
Proof.
  unfold py_iter, alloc. destruct v as [| | | |vs|l]; simpl; try done.
  destruct (h !! l) as [[]|] eqn:E; done.
Qed.

Lemma src_ok_items h s items : src_items h s = Some items → src_ok h (Some s).
Proof.
  destruct s as [l|vs]; simpl; [|done].
  destruct (h !! l) as [[]|]; try done. eauto.
Qed.

Lemma src_ok_evolves h h' s s' :
  evolves h h' → src_ok h s → s' = None ∨ s' = s → src_ok h' s'.
Proof.
  intros He Hok [-> | ->]; [done|].
  destruct s as [[l|vs]|]; simpl in *; try done.
  destruct Hok as [items Hl]. by eapply evolves_list.
Qed.

Lemma evolves_iter h h' i s p :
  evolves h h' → h !! i = Some (OSeqIter s p) →
  ∃ s' p', h' !! i = Some (OSeqIter s' p') ∧ (s' = None ∨ s' = s).
Proof.
  intros He Hi. destruct (He _ _ Hi) as (o' & Ho' & s' & p' & -> & Hs). eauto.
Qed.

Lemma evolves_zip h h' z iters :
  evolves h h' → h !! z = Some (OZip iters) → h' !! z = Some (OZip iters).
Proof. intros He Hz. destruct (He _ _ Hz) as (o' & Ho' & Hc). simpl in Hc. by subst. Qed.

Lemma zip2_evolves h h' z ia ib :
  evolves h h' → zip2 h z ia ib → zip2 h' z ia ib.
Proof.
  intros He (Hne & Hz & sa & pa & sb & pb & Ha & Hb & Hoka & Hokb).
  destruct (evolves_iter _ _ _ _ _ He Ha) as (sa' & pa' & Ha' & Hsa).
  destruct (evolves_iter _ _ _ _ _ He Hb) as (sb' & pb' & Hb' & Hsb).
  split; [done|]. split; [by eapply evolves_zip|].
  exists sa', pa', sb', pb'. split; [done|]. split; [done|]. split.
  - exact (src_ok_evolves h h' sa sa' He Hoka Hsa).
  - exact (src_ok_evolves h h' sb sb' He Hokb Hsb).
Qed.

Lemma data_only_singleton name x :
  name ∈ data_names → data_only {[name := x]}.
Proof.
  intros Hn. rewrite <- insert_empty.
  apply data_only_insert; [done | apply data_only_empty].
Qed.

Lemma lazy_soft_evolves h h' g z ia ib :
  evolves h h' → lazy_soft h g z ia ib → lazy_soft h' g z ia ib.
Proof.
  intros He (l & attrs & -> & Hl & Hd & Hs & Hz). exists l, attrs.
  split; [done|]. split; [by eapply evolves_instance|]. split; [done|].
  split; [done|]. by eapply zip2_evolves.
Qed.

Lemma eager_soft_evolves h h' g ls :
  evolves h h' → eager_soft h g ls → eager_soft h' g ls.
Proof.
  intros He (l & attrs & -> & Hl & Hd & Hs & items & Hls). exists l, attrs.
  split; [done|]. split; [by eapply evolves_instance|]. split; [done|].
  split; [done|]. by eapply evolves_list.
Qed.

Lemma soft_pairs_lazy h g z ia ib fuel :
  lazy_soft h g z ia ib →
  length (zip_with soft_pair (iter_rest h ia) (iter_rest h ib)) < fuel →
  ∃ h', soft_pairs fuel g h
        = Some (Ok (zip_with soft_pair (iter_rest h ia) (iter_rest h ib)), h')
      ∧ lazy_soft h' g z ia ib
      ∧ (iter_rest h' ia = [] ∨ iter_rest h' ib = []).
Proof.
  intros (l & attrs & -> & Hl & Hd & Hs & Hz) Hfuel.
  destruct (collect_zip2 _ h z ia ib fuel Hz (le_n _) Hfuel)
    as (h' & Hcol & Hz' & [Hlen Hfr] & Hstop).
  exists h'. unfold soft_pairs, getattr. rewrite Hl, Hs.
  unfold iterate, py_iter. destruct Hz as (Hne & Hzc & sa & pa & sb & pb & Ha & Hb & _).
  rewrite Hzc. split; [done|]. split; [|done].
  exists l, attrs. split; [done|]. split; [| by split].
  rewrite Hfr; [done | |]; intros ->; congruence.
Qed.

Lemma lookup_app_at (h : list obj) (tl : list obj) i :
  (h ++ tl) !! (length h + i) = tl !! i.
Proof. rewrite lookup_app_r by lia. f_equal. lia. Qed.

Lemma lookup_app_at0 (h : list obj) (tl : list obj) :
  (h ++ tl) !! length h = tl !! 0.
Proof. rewrite <- (lookup_app_at h tl 0). f_equal. lia. Qed.

Lemma insert_app_at0 (h : list obj) o o' (tl : list obj) :
  <[length h := o']> (h ++ o :: tl) = h ++ o' :: tl.
Proof.
  replace (length h) with (length h + 0) at 1 by lia. by rewrite insert_app_r.
Qed.

Lemma zip_cells_length h inst a b : length (zip_cells h inst a b) = length h + 4.
Proof. unfold zip_cells. rewrite length_app. simpl. lia. Qed.

Lemma zip_cells_old h inst a b l o :
  h !! l = Some o → zip_cells h inst a b !! l = Some o.
Proof. apply lookup_app_l_Some. Qed.

Lemma py_zip_cells py h inst a b A B :
  deref h a = Some A → deref h b = Some B →
  py_zip py a b (h ++ [inst])
  = match py with
    | Py3 => (Ok (VRef (length h + 3)), zip_cells h inst a b)
    | Py2 => zip_to_list (length h + 3) (zip_cells h inst a b)
    end.
Proof.
  intros Ha Hb. unfold py_zip, mbind, M_bind, bind.
  set (h0 := h ++ [inst]).
  destruct (py_iter_seq h0 a A) as [-> _]; [by apply deref_alloc|].
  set (h1 := h0 ++ _).
  destruct (py_iter_seq h1 b B) as [-> _]; [by do 2 apply deref_alloc|].
  unfold alloc.
  assert (length h0 = length h + 1) as L0 by (unfold h0; rewrite length_app; simpl; lia).
  assert (length h1 = length h + 2) as L1 by (unfold h1; rewrite length_app; simpl; lia).
  assert (length (h1 ++ [OSeqIter (Some (seq_source b)) 0]) = length h + 3) as L2
    by (rewrite length_app; simpl; lia).
  rewrite L2, L0, L1.
  assert ((h1 ++ [OSeqIter (Some (seq_source b)) 0]) ++ [OZip [length h + 1; length h + 2]]
          = zip_cells h inst a b) as ->.
  { unfold zip_cells, h1, h0. by rewrite <- !app_assoc. }
  by destruct py.
Qed.

Lemma zip_cells_zip2 h inst a b A B :
  deref h a = Some A → deref h b = Some B →
  zip2 (zip_cells h inst a b) (length h + 3) (length h + 1) (length h + 2)
  ∧ iter_rest (zip_cells h inst a b) (length h + 1) = A
  ∧ iter_rest (zip_cells h inst a b) (length h + 2) = B.
Proof.
  intros Ha Hb.
  destruct (py_iter_seq h a A Ha) as [_ Hsa].
  destruct (py_iter_seq h b B Hb) as [_ Hsb].
  assert (∀ s items, src_items h s = Some items →
            src_items (zip_cells h inst a b) s = Some items) as Hsrc.
  { intros [l|vs] items; simpl; [|done].
    destruct (h !! l) as [[]|] eqn:E; try done. intros [= <-].
    by rewrite (zip_cells_old _ _ _ _ _ _ E). }
  assert (zip_cells h inst a b !! (length h + 1)
          = Some (OSeqIter (Some (seq_source a)) 0)) as Hia
    by (unfold zip_cells; by rewrite lookup_app_at).
  assert (zip_cells h inst a b !! (length h + 2)
          = Some (OSeqIter (Some (seq_source b)) 0)) as Hib
    by (unfold zip_cells; by rewrite lookup_app_at).
  split; [| split].
  - split; [lia|]. split; [unfold zip_cells; by rewrite lookup_app_at|].
    exists (Some (seq_source a)), 0, (Some (seq_source b)), 0.
    split; [done|]. split; [done|].
    split; eapply src_ok_items; by apply Hsrc.
  - unfold iter_rest, rest. by rewrite Hia, (Hsrc _ _ Hsa).
  - unfold iter_rest, rest. by rewrite Hib, (Hsrc _ _ Hsb).
Qed.

Lemma construct_MaxSMTGoal_py3 h a b A B :
  deref h a = Some A → deref h b = Some B →
  construct Py3 MaxSMTGoal [a; b] h = (Ok (VRef (length h)), maxsmt_heap3 h a b).
Proof.
  intros Ha Hb. unfold construct, mbind, M_bind, bind, alloc. simpl.
  unfold MaxSMTGoal___init__, mbind, M_bind, bind.
  rewrite (py_zip_cells Py3 h _ a b A B Ha Hb).
  unfold setattr, zip_cells. rewrite lookup_app_at0. simpl.
  by rewrite insert_app_at0.
Qed.

Lemma maxsmt_heap3_lazy h a b A B :
  deref h a = Some A → deref h b = Some B →
  lazy_soft (maxsmt_heap3 h a b) (VRef (length h))
    (length h + 3) (length h + 1) (length h + 2)
  ∧ iter_rest (maxsmt_heap3 h a b) (length h + 1) = A
  ∧ iter_rest (maxsmt_heap3 h a b) (length h + 2) = B.
Proof.
  intros Ha Hb.
  destruct (zip_cells_zip2 h (OInstance MaxSMTGoal {["soft" := VRef (length h + 3)]})
              a b A B Ha Hb) as (Hz & HA & HB).
  split; [| by split].
  eexists _, _. split; [done|].
  split; [unfold maxsmt_heap3, zip_cells; by rewrite lookup_app_at0|].
  split; [apply data_only_singleton; compute_done|].
  split; [apply lookup_singleton_eq | done].
Qed.

Lemma obj_weight_le (h : list obj) l o :
  h !! l = Some o → obj_weight o ≤ heap_weight h.
Proof.
  unfold heap_weight. revert l. induction h as [|x h IH]; intros l H; [done|].
  rewrite fmap_cons. destruct l as [|l]; simpl in H.
  - injection H as ->. generalize (obj_weight o). intros w. simpl. lia.
  - specialize (IH l H). revert IH.
    generalize (obj_weight o) (obj_weight x). intros w w' IH. simpl. lia.
Qed.

Lemma iter_rest_weight h it : length (iter_rest h it) ≤ heap_weight h.
Proof.
  unfold iter_rest. destruct (h !! it) as [[|s p| |]|] eqn:E; simpl; try lia.
  unfold rest. destruct s as [[l|vs]|]; simpl; try lia.
  - destruct (h !! l) as [[items| | |]|] eqn:El; simpl; try lia.
    rewrite length_drop. pose proof (obj_weight_le h l _ El). simpl in *. lia.
  - rewrite length_drop. pose proof (obj_weight_le h it _ E). simpl in *. lia.
Qed.

Lemma zip_to_list_zip2 h z ia ib :
  zip2 h z ia ib →
  ∃ h', zip_to_list z h
        = (Ok (VRef (length h)),
           h' ++ [OList (zip_with soft_pair (iter_rest h ia) (iter_rest h ib))])
      ∧ frame ia ib h h' ∧ zip2 h' z ia ib.
Proof.
  intros Hz.
  destruct (collect_zip2 (heap_weight h) h z ia ib (S (heap_weight h)) Hz)
    as (h' & Hcol & Hz' & Hfr & _); [| lia |].
  { rewrite length_zip_with. pose proof (iter_rest_weight h ia). lia. }
  exists h'. unfold zip_to_list. rewrite Hcol.
  destruct Hfr as [Hlen Hfr]. rewrite Hlen. split; [done|]. split; [by split | done].
Qed.

Lemma construct_MaxSMTGoal_py2 h a b A B :
  deref h a = Some A → deref h b = Some B →
  ∃ h', construct Py2 MaxSMTGoal [a; b] h = (Ok (VRef (length h)), h')
      ∧ h' !! length h
        = Some (OInstance MaxSMTGoal {["soft" := VRef (length h + 4)]})
      ∧ h' !! (length h + 4) = Some (OList (zip_with soft_pair A B))
      ∧ ∀ l o, h !! l = Some o → h' !! l = Some o.
Proof.
  intros Ha Hb. unfold construct, mbind, M_bind, bind, alloc. simpl.
  unfold MaxSMTGoal___init__, mbind, M_bind, bind.
  rewrite (py_zip_cells Py2 h _ a b A B Ha Hb).
  set (h3 := zip_cells h (OInstance MaxSMTGoal ∅) a b).
  destruct (zip_cells_zip2 h (OInstance MaxSMTGoal ∅) a b A B Ha Hb)
    as (Hz & HA & HB). fold h3 in Hz, HA, HB.
  destruct (zip_to_list_zip2 h3 _ _ _ Hz) as (h4 & -> & [Hlen Hfr] & _).
  assert (length h3 = length h + 4) as L3 by apply zip_cells_length.
  assert (h4 !! length h = Some (OInstance MaxSMTGoal ∅)) as Hl.
  { rewrite Hfr by lia. unfold h3, zip_cells. by rewrite lookup_app_at0. }
  unfold setattr. rewrite (lookup_app_l_Some _ _ _ _ Hl). simpl.
  rewrite L3. eexists. split; [done|].
  assert (length h < length h4) as Hlt by (by eapply lookup_lt_Some).
  split; [| split].
  - apply list_lookup_insert_eq. rewrite length_app. lia.
  - rewrite list_lookup_insert_ne by lia.
    rewrite <- L3, <- Hlen. by rewrite lookup_app_at0, HA, HB.
  - intros l o Ho. pose proof (lookup_lt_Some _ _ _ Ho).
    rewrite list_lookup_insert_ne by lia.
    apply lookup_app_l_Some. rewrite Hfr by lia.
    by apply zip_cells_old.
Qed.

Lemma py_next_seq h it s p :
  h !! it = Some (OSeqIter s p) → py_next it h = seq_next it s p h.
Proof.
  intros H. unfold py_next. pose proof (lookup_lt_Some _ _ _ H).
  destruct (length h) as [|d] eqn:E; [lia|]. by apply next_depth_seq.
Qed.

Lemma seq_next_stop h it s pos :
  h !! it = Some (OSeqIter s pos) → src_ok h s → rest h s pos = [] →
  seq_next it s pos h = (Raise StopIteration, <[it := OSeqIter None pos]> h).
Proof.
  intros Hit Hok Hr. unfold seq_next.
  destruct s as [s|]; [| by rewrite list_insert_id].
  unfold rest in Hr. destruct (src_items h s) as [items|] eqn:Es.
  - destruct (items !! pos) as [x|] eqn:Ex; [|done].
    by rewrite (drop_S _ _ _ Ex) in Hr.
  - destruct s as [l|vs]; simpl in *; [|done].
    destruct Hok as [items Hl]. by rewrite Hl in Es.
Qed.

Lemma collect_seq n : ∀ h it s p fuel,
  h !! it = Some (OSeqIter s p) → src_ok h s →
  length (rest h s p) ≤ n → n < fuel →
  ∃ p', collect fuel it h = Some (Ok (rest h s p), <[it := OSeqIter None p']> h).
Proof.
  induction n as [|n IH]; intros h it s p fuel Hit Hok Hlen Hfuel;
    (destruct fuel as [|fuel]; [lia|]); simpl; rewrite (py_next_seq _ _ _ _ Hit);
    pose proof (seq_next_rest h it s p Hit Hok) as Hstep;
    destruct (rest h s p) as [|x xs] eqn:Er.
  - rewrite (seq_next_stop _ _ _ _ Hit Hok Er). eauto.
  - simpl in Hlen. lia.
  - rewrite (seq_next_stop _ _ _ _ Hit Hok Er). eauto.
  - destruct Hstep as [-> Hxs].
    set (h1 := <[it := OSeqIter s (S p)]> h).
    assert (h1 !! it = Some (OSeqIter s (S p))) as Hit1.
    { unfold h1. by rewrite list_lookup_insert_eq by by eapply lookup_lt_Some. }
    destruct (IH h1 it s (S p) fuel Hit1) as [p' Hcol].
    + by eapply src_ok_insert_iter.
    + unfold h1. rewrite (rest_insert_iter h it s p _ _ _ _ Hit), Hxs.
      simpl in Hlen. lia.
    + lia.
    + exists p'. rewrite Hcol. unfold h1.
      rewrite (rest_insert_iter h it s p _ _ _ _ Hit), Hxs.
      by rewrite list_insert_insert_eq.
Qed.

(** Reading an eager pairing leaves one spent iterator behind. *)
Lemma soft_pairs_eager h l attrs ls items fuel :
  h !! l = Some (OInstance MaxSMTGoal attrs) →
  attrs !! "soft" = Some (VRef ls) →
  h !! ls = Some (OList items) → length items < fuel →
  ∃ p', soft_pairs fuel (VRef l) h = Some (Ok items, h ++ [OSeqIter None p']).
Proof.
  intros Hl Hs Hls Hfuel. unfold soft_pairs, getattr. rewrite Hl, Hs.
  unfold iterate, py_iter, alloc. rewrite Hls.
  set (h1 := h ++ [OSeqIter (Some (SrcList ls)) 0]).
  assert (h1 !! ls = Some (OList items)) as Hls1 by by apply lookup_app_l_Some.
  destruct (collect_seq (length items) h1 (length h) (Some (SrcList ls)) 0 fuel)
    as [p' Hcol].
  - apply lookup_fresh.
  - simpl. eauto.
  - unfold rest. simpl. by rewrite Hls1.
  - done.
  - exists p'. rewrite Hcol. unfold rest. simpl. rewrite Hls1. simpl.
    unfold h1. by rewrite insert_fresh.
Qed.

Lemma call_add_soft_clause_eager py h l attrs ls items c w :
  h !! l = Some (OInstance MaxSMTGoal attrs) → data_only attrs →
  attrs !! "soft" = Some (VRef ls) → h !! ls = Some (OList items) →
  call_method py (VRef l) "add_soft_clause" [c; w] h
  = (Ok VNone, <[ls := OList (items ++ [soft_pair c w])]> h).
Proof.
  intros Hl Hd Hs Hls. unfold call_method. rewrite Hl.
  rewrite (not_data _ _ Hd) by compute_done. simpl.
  unfold MaxSMTGoal_add_soft_clause, mbind, M_bind, bind, getattr.
  rewrite Hl, Hs. unfold list_method. rewrite Hls.
  unfold list_append, list_add. by rewrite Hls.
Qed.

Lemma call_add_soft_clause_lazy py h g z ia ib c w :
  lazy_soft h g z ia ib →
  call_method py g "add_soft_clause" [c; w] h = (Raise AttributeError, h).
Proof.
  intros (l & attrs & -> & Hl & Hd & Hs & Hne & Hz & _).
  unfold call_method. rewrite Hl.
  rewrite (not_data _ _ Hd) by compute_done. simpl.
  unfold MaxSMTGoal_add_soft_clause, mbind, M_bind, bind, getattr.
  rewrite Hl, Hs. unfold list_method. by rewrite Hz.
Qed.

Lemma soft_pairs_mono fuel fuel' g h r :
  soft_pairs fuel g h = Some r → fuel ≤ fuel' → soft_pairs fuel' g h = Some r.
Proof.
  unfold soft_pairs, iterate.
  destruct (getattr g "soft" h) as [[s|e] h1]; [|done].
  destruct (py_iter s h1) as [[it|e] h2]; [|done].
  intros H Hle. by eapply collect_mono.
Qed.

Lemma soft_ready_evolves h h' g : evolves h h' → soft_ready h g → soft_ready h' g.
Proof.
  intros He [(z & ia & ib & H) | (ls & H)]; [left | right].
  - exists z, ia, ib. by eapply lazy_soft_evolves.
  - exists ls. by eapply eager_soft_evolves.
Qed.

Lemma soft_pairs_total h g :
  soft_ready h g →
  ∃ n pairs h', ∀ fuel, n ≤ fuel → soft_pairs fuel g h = Some (Ok pairs, h').
Proof.
  intros [(z & ia & ib & H) | (ls & l & attrs & -> & Hl & Hd & Hs & items & Hls)].
  - set (n := S (length (zip_with soft_pair (iter_rest h ia) (iter_rest h ib)))).
    destruct (soft_pairs_lazy h g z ia ib n H) as (h' & Hsp & _); [unfold n; lia|].
    exists n, (zip_with soft_pair (iter_rest h ia) (iter_rest h ib)), h'.
    intros fuel Hle. by eapply soft_pairs_mono.
  - destruct (soft_pairs_eager h l attrs ls items (S (length items)) Hl Hs Hls)
      as [p' Hsp]; [lia|].
    exists (S (length items)), items, (h ++ [OSeqIter None p']).
    intros fuel Hle. by eapply soft_pairs_mono.
Qed.

Lemma construct_soft_ready py h a b A B g h1 :
  deref h a = Some A → deref h b = Some B →
  construct py MaxSMTGoal [a; b] h = (Ok g, h1) → soft_ready h1 g.
Proof.
  intros Ha Hb. destruct py.
  - destruct (construct_MaxSMTGoal_py2 h a b A B Ha Hb) as (h' & -> & Hl & Hls & _).
    intros [= <- <-]. right. exists (length h + 4).
    eexists _, _. split; [done|]. split; [done|].
    split; [apply data_only_singleton; compute_done|].
    split; [apply lookup_singleton_eq | eauto].
  - rewrite (construct_MaxSMTGoal_py3 h a b A B Ha Hb). intros [= <- <-].
    left. eexists _, _, _. by apply (maxsmt_heap3_lazy h a b A B).
Qed.

Lemma construct_arity py c args h g h1 :
  construct py c args h = (Ok g, h1) → length args = arity c.
Proof.
  unfold construct, mbind, M_bind, bind, alloc.
  destruct c; simpl;
    first [destruct args as [|? [|? [|? ?]]]; simpl; done].
Qed.

(** Claim C8.  On a goal that its constructor returned, after any public
    operations, the accessors return normally: [term()] on a
    MaximizationGoal or MinimizationGoal, [terms()] on a MinMaxGoal or
    MaxMinGoal, and the loop over the soft pairs of a MaxSMTGoal built from
    two sequences (lists or tuples), which ends with the same result for
    every amount of fuel from some bound on. *)
Theorem accessors_total py c args h g h1 ops :
  construct py c args h = (Ok g, h1) →
  (c = MaxSMTGoal → Forall (λ a, is_Some (deref h a)) args) →
  forallb public ops = true →
  let h2 := run_ops py ops h1 in
  (c ∈ single_term_goals → ∃ v, call_method py g "term" [] h2 = (Ok v, h2))
  ∧ (c ∈ aggregate_goals → ∃ v, call_method py g "terms" [] h2 = (Ok v, h2))
  ∧ (c = MaxSMTGoal →
     ∃ n pairs h3, ∀ fuel, n ≤ fuel → soft_pairs fuel g h2 = Some (Ok pairs, h3)).
Proof.
  intros Hcons Hseq Hops h2.
  pose proof (run_ops_evolves py ops h1 Hops) as He. fold h2 in He.
  pose proof (construct_arity _ _ _ _ _ _ Hcons) as Har.
  split; [| split].
  - intros Hc. assert (arity c = 1) as E by (cases_in Hc; by subst).
    rewrite E in Har. destruct args as [|f [|? ?]]; try done.
    rewrite construct_simple in Hcons by (cases_in Hc; auto).
    injection Hcons as <- <-. exists f.
    apply (call_term py h2 _ c f Hc).
    eapply evolves_instance; [done | apply lookup_fresh].
  - intros Hc. assert (arity c = 1) as E by (cases_in Hc; by subst).
    rewrite E in Har. destruct args as [|t [|? ?]]; try done.
    rewrite construct_aggregate in Hcons by (cases_in Hc; auto).
    injection Hcons as <- <-. exists t.
    apply (call_terms py h2 _ c t Hc).
    eapply evolves_instance; [done | apply lookup_fresh].
  - intros ->. specialize (Hseq eq_refl).
    destruct args as [|a [|b [|? ?]]]; try done.
    apply Forall_cons in Hseq as [[A HA] Hseq].
    apply Forall_cons in Hseq as [[B HB] _].
    apply soft_pairs_total. eapply soft_ready_evolves; [done|].
    by eapply (construct_soft_ready py h a b A B).
Qed.

Lemma accessors_total_witness :
  let h := [OList [VTerm 1; VTerm 2]; OList [VInt 10; VInt 20]] in
  let g := VRef 2 in
  let ops := [Read g 9; Call g "add_soft_clause" [VTerm 3; VInt 30];
              Mutate 0 [VTerm 5; VTerm 6; VTerm 7]; Read g 9] in
  let h2 := run_ops Py3 ops (maxsmt_heap3 h (VRef 0) (VRef 1)) in
  ∃ n pairs h3, ∀ fuel, n ≤ fuel → soft_pairs fuel g h2 = Some (Ok pairs, h3).
Proof.
  refine (proj2 (proj2 (accessors_total Py3 MaxSMTGoal [VRef 0; VRef 1]
    [OList [VTerm 1; VTerm 2]; OList [VInt 10; VInt 20]] (VRef 2) _
    [Read (VRef 2) 9; Call (VRef 2) "add_soft_clause" [VTerm 3; VInt 30];
     Mutate 0 [VTerm 5; VTerm 6; VTerm 7]; Read (VRef 2) 9] _ _ _)) eq_refl).
  - reflexivity.
  - intros _. repeat constructor; eexists; reflexivity.
  - reflexivity.
Defined.

(** The aggregate goals answer [is_simple_goal()] with [True] but have no
    method [term]: the name is their list attribute, and calling it raises. *)
Example term_on_aggregate_goal_raises :
  let h := [OList [VTerm 1]] in
  let h1 := h ++ [OInstance MinMaxGoal {["term" := VRef 0]}] in
  (g ← construct Py3 MinMaxGoal [VRef 0]; call_method Py3 g "term" []) h
  = (Raise TypeError, h1)
  ∧ call_method Py3 (VRef 1) "is_simple_goal" [] h1 = (Ok (VBool true), h1).
Proof. split; vm_compute; reflexivity. Qed.

(** Claim C1, evaluated under Python 3 on [C = [c1, c2]], [W = [w1, w2]].
    The constructor succeeds, [add_soft_clause(c3, w3)] raises
    [AttributeError] and leaves the heap as it was, and the pairs read from
    the goal are [(c1, w1), (c2, w2)]: the third pair is not stored. *)
Theorem add_soft_clause_fails_on_zip_object :
  let h := [OList [VTerm 1; VTerm 2]; OList [VInt 10; VInt 20]] in
  let g := VRef 2 in
  let h1 := maxsmt_heap3 h (VRef 0) (VRef 1) in
  construct Py3 MaxSMTGoal [VRef 0; VRef 1] h = (Ok g, h1)
  ∧ call_method Py3 g "add_soft_clause" [VTerm 3; VInt 30] h1
    = (Raise AttributeError, h1)
  ∧ fst <$> soft_pairs 9 g h1
    = Some (Ok [soft_pair (VTerm 1) (VInt 10); soft_pair (VTerm 2) (VInt 20)]).
Proof. repeat split; vm_compute; reflexivity. Qed.

(** Extra X11.  Under Python 3, on a goal built from any two sequences,
    [add_soft_clause] raises [AttributeError] and changes nothing. *)
Lemma add_soft_clause_raises_py3 h a b A B c w :
  deref h a = Some A → deref h b = Some B →
  let g := VRef (length h) in
  let h1 := maxsmt_heap3 h a b in
  construct Py3 MaxSMTGoal [a; b] h = (Ok g, h1)
  ∧ call_method Py3 g "add_soft_clause" [c; w] h1 = (Raise AttributeError, h1).
Proof.
  intros Ha Hb g h1. split; [by eapply construct_MaxSMTGoal_py3|].
  destruct (maxsmt_heap3_lazy h a b A B Ha Hb) as (Hlazy & _).
  by eapply call_add_soft_clause_lazy.
Qed.

(** Extra X14.  Under Python 2, after [add_soft_clause(c, w)] on a goal built
    from two sequences, the soft pairs read are the positional pairs of
    the arguments followed by [(c, w)]. *)
Lemma add_soft_clause_appends_py2 h a b A B c w :
  deref h a = Some A → deref h b = Some B →
  ∃ g h1 h2 h3,
    construct Py2 MaxSMTGoal [a; b] h = (Ok g, h1)
    ∧ call_method Py2 g "add_soft_clause" [c; w] h1 = (Ok VNone, h2)
    ∧ ∀ fuel, S (length (zip_with soft_pair A B)) < fuel →
        soft_pairs fuel g h2 = Some (Ok (zip_with soft_pair A B ++ [soft_pair c w]), h3).
Proof.
  intros Ha Hb.
  destruct (construct_MaxSMTGoal_py2 h a b A B Ha Hb) as (h1 & Hc & Hl & Hls & _).
  set (l := length h) in *. set (ls := length h + 4) in *.
  set (items := zip_with soft_pair A B) in *.
  set (h2 := <[ls := OList (items ++ [soft_pair c w])]> h1).
  assert (h2 !! l = Some (OInstance MaxSMTGoal {["soft" := VRef ls]})) as Hl2.
  { unfold h2. rewrite list_lookup_insert_ne by (unfold l, ls; lia). done. }
  assert (h2 !! ls = Some (OList (items ++ [soft_pair c w]))) as Hls2.
  { unfold h2. apply list_lookup_insert_eq. by eapply lookup_lt_Some. }
  destruct (soft_pairs_eager h2 l _ ls _ (S (S (length items))) Hl2
              (lookup_singleton_eq _ _) Hls2) as [p' Hsp].
  { rewrite length_app. simpl. lia. }
  exists (VRef l), h1, h2, (h2 ++ [OSeqIter None p']).
  split; [done|]. split.
  - apply (call_add_soft_clause_eager Py2 h1 l _ ls items c w Hl);
      [apply data_only_singleton; compute_done | apply lookup_singleton_eq | done].
  - intros fuel Hfuel. eapply soft_pairs_mono; [done | lia].
Qed.

(** Claim C3, evaluated under Python 3 on [C = [c1, c2]], [W = [w1, w2]].
    The first read of the soft pairs yields [(c1, w1), (c2, w2)]; the
    second read, with nothing done in between, yields no pair at all. *)
Theorem soft_pairs_second_read_is_empty :
  let h := [OList [VTerm 1; VTerm 2]; OList [VInt 10; VInt 20]] in
  let g := VRef 2 in
  let h1 := maxsmt_heap3 h (VRef 0) (VRef 1) in
  let h2 := run_ops Py3 [Read g 9] h1 in
  construct Py3 MaxSMTGoal [VRef 0; VRef 1] h = (Ok g, h1)
  ∧ fst <$> soft_pairs 9 g h1
    = Some (Ok [soft_pair (VTerm 1) (VInt 10); soft_pair (VTerm 2) (VInt 20)])
  ∧ fst <$> soft_pairs 9 g h2 = Some (Ok []).
Proof. repeat split; vm_compute; reflexivity. Qed.


(** Extra X15.  Under Python 2, reading the soft pairs does not use them up:
    after any number of reads, a read yields the positional pairs of the
    constructor's arguments again. *)
Lemma eager_pairing_is_persistent h a b A B :
  deref h a = Some A → deref h b = Some B →
  ∃ g h1, construct Py2 MaxSMTGoal [a; b] h = (Ok g, h1)
    ∧ ∀ ops, Forall (λ o, ∃ fuel, o = Read g fuel) ops →
        ∃ n h3, ∀ fuel, n ≤ fuel →
          soft_pairs fuel g (run_ops Py2 ops h1) = Some (Ok (zip_with soft_pair A B), h3).
Proof.
  intros Ha Hb.
  destruct (construct_MaxSMTGoal_py2 h a b A B Ha Hb) as (h1 & Hc & Hl & Hls & _).
  exists (VRef (length h)), h1. split; [done|].
  intros ops Hops.
  assert (∀ hx,
    hx !! length h
    = Some (OInstance MaxSMTGoal {["soft" := VRef (length h + 4)]}) →
                hx !! (length h + 4) = Some (OList (zip_with soft_pair A B)) →
    ∃ n h3, ∀ fuel, n ≤ fuel →
      soft_pairs fuel (VRef (length h)) (run_ops Py2 ops hx)
      = Some (Ok (zip_with soft_pair A B), h3)) as Hgen; [| by apply Hgen].
  induction Hops as [|o ops [fuel0 ->] _ IH]; intros hx Hlx Hlsx.
  - destruct (soft_pairs_eager hx _ _ _ _ (S (length (zip_with soft_pair A B))) Hlx
                (lookup_singleton_eq _ _) Hlsx) as [p' Hsp]; [lia|].
    eexists _, _. intros fuel Hle. eapply soft_pairs_mono; [exact Hsp | done].
  - rewrite run_ops_cons.
    destruct (soft_pairs_eager hx _ _ _ _ (S (fuel0 + length (zip_with soft_pair A B))) Hlx
                (lookup_singleton_eq _ _) Hlsx) as [p' Hsp]; [lia|].
    assert (∃ k, run_op Py2 (Read (VRef (length h)) fuel0) hx = hx ++ k) as [k ->].
    { unfold run_op.
      destruct (soft_pairs fuel0 (VRef (length h)) hx) as [[r hy]|] eqn:E.
      - rewrite (soft_pairs_mono _ _ _ _ _ E) in Hsp by lia.
        injection Hsp as -> ->. eauto.
      - exists []. by rewrite app_nil_r. }
    apply IH; by apply lookup_app_l_Some.
Qed.

(** Claim C2, as stated, fails: with two clauses and one weight the
    constructor returns the new goal, under Python 3 and under Python 2. *)
Lemma mismatched_lengths_are_accepted :
  let h := [OList [VTerm 1; VTerm 2]; OList [VInt 10]] in
  length [VTerm 1; VTerm 2] ≠ length [VInt 10]
  ∧ fst (construct Py3 MaxSMTGoal [VRef 0; VRef 1] h) = Ok (VRef 2)
  ∧ fst (construct Py2 MaxSMTGoal [VRef 0; VRef 1] h) = Ok (VRef 2).
Proof. repeat split; [simpl; lia | vm_compute; reflexivity ..]. Qed.

(** Claim C2, amended.  For any two sequences (lists or tuples), whatever
    their lengths, [MaxSMTGoal(clause, weight)] returns the new goal; the
    pairs read from it right after construction are the positional pairs of
    the two inputs up to the shorter one. *)
Theorem construct_MaxSMTGoal_pairs_common_prefix py h a b A B :
  deref h a = Some A → deref h b = Some B →
  ∃ g h1 h2,
    construct py MaxSMTGoal [a; b] h = (Ok g, h1)
    ∧ (∀ fuel, length A `min` length B < fuel →
         soft_pairs fuel g h1 = Some (Ok (zip_with soft_pair A B), h2))
    ∧ length (zip_with soft_pair A B) = length A `min` length B.
Proof.
  intros Ha Hb. destruct py.
  - destruct (construct_MaxSMTGoal_py2 h a b A B Ha Hb) as (h1 & Hc & Hl & Hls & _).
    destruct (soft_pairs_eager h1 _ _ _ _ (S (length (zip_with soft_pair A B))) Hl
                (lookup_singleton_eq _ _) Hls) as [p' Hsp]; [lia|].
    eexists _, h1, _. split; [done|]. split; [| apply length_zip_with].
    intros fuel Hfuel. eapply soft_pairs_mono; [exact Hsp|].
    rewrite length_zip_with. lia.
  - destruct (maxsmt_heap3_lazy h a b A B Ha Hb) as (Hlazy & HA & HB).
    destruct (soft_pairs_lazy _ _ _ _ _ (S (length (zip_with soft_pair A B))) Hlazy)
      as (h2 & Hsp & _); [rewrite HA, HB; lia|].
    rewrite HA, HB in Hsp.
    eexists _, _, h2. split; [by eapply construct_MaxSMTGoal_py3|].
    split; [| apply length_zip_with].
    intros fuel Hfuel. eapply soft_pairs_mono; [exact Hsp|].
    rewrite length_zip_with. lia.
Qed.

Lemma construct_MaxSMTGoal_pairs_common_prefix_witness :
  let h := [OList [VTerm 1; VTerm 2]; OList [VInt 10]] in
  ∃ g h1 h2,
    construct Py3 MaxSMTGoal [VRef 0; VRef 1] h = (Ok g, h1)
    ∧ (∀ fuel, 2 `min` 1 < fuel →
         soft_pairs fuel g h1 = Some (Ok [soft_pair (VTerm 1) (VInt 10)], h2))
    ∧ length [soft_pair (VTerm 1) (VInt 10)] = 2 `min` 1.
Proof.
  apply (construct_MaxSMTGoal_pairs_common_prefix Py3
           [OList [VTerm 1; VTerm 2]; OList [VInt 10]] (VRef 0) (VRef 1)
           [VTerm 1; VTerm 2] [VInt 10]); reflexivity.
Defined.

(** * Further properties *)

(** Extra X1.  The constructors of Goal, MaximizationGoal, MinimizationGoal,
    MinMaxGoal and MaxMinGoal check the number of their arguments and
    nothing else: with the right number the new instance is returned,
    whatever the values are; with any other number the call raises
    [TypeError] and changes no existing object. *)
Theorem construct_checks_only_the_arity py c args h :
  c ∈ Goal :: single_term_goals ++ aggregate_goals →
  (length args = arity c →
     ∃ attrs, construct py c args h
              = (Ok (VRef (length h)), h ++ [OInstance c attrs]))
  ∧ (length args ≠ arity c →
     ∃ k, construct py c args h = (Raise TypeError, h ++ k)).
Proof.
  intros Hc. split; intros Hlen.
  - cases_in Hc; subst c; simpl in Hlen;
      destruct args as [|a [|? ?]]; try done.
    + by exists ∅.
    + eexists. by apply construct_simple; left.
    + eexists. by apply construct_simple; right.
    + eexists. by apply construct_aggregate; left.
    + eexists. by apply construct_aggregate; right.
  - exists [OInstance c ∅].
    cases_in Hc; subst c; simpl in Hlen;
      destruct args as [|a [|? ?]]; done.
Qed.

Lemma construct_checks_only_the_arity_witness :
  (∃ attrs, construct Py3 MinimizationGoal [VNone] []
            = (Ok (VRef 0), [OInstance MinimizationGoal attrs]))
  ∧ ∃ k, construct Py3 MinMaxGoal [VTerm 1; VTerm 2] []
         = (Raise TypeError, [] ++ k).
Proof.
  split.
  - apply (proj1 (construct_checks_only_the_arity Py3 MinimizationGoal [VNone] []
                    ltac:(compute_done))). reflexivity.
  - apply (proj2 (construct_checks_only_the_arity Py3 MinMaxGoal
                    [VTerm 1; VTerm 2] [] ltac:(compute_done))). simpl. lia.
Defined.

(** Extra X2.  Calls of [add_terms] accumulate: after the calls
    [add_terms(E1...)], ..., [add_terms(En...)] on a goal built from the
    list [T], [terms()] returns the caller's list and it holds [T] followed
    by [E1], ..., [En] in order; a call without terms adds nothing. *)
Theorem add_terms_accumulates py c h lT T Es :
  c ∈ aggregate_goals →
  h !! lT = Some (OList T) →
  let g := VRef (length h) in
  let h1 := h ++ [OInstance c {["term" := VRef lT]}] in
  let h2 := run_ops py (add_terms_calls g Es) h1 in
  construct py c [VRef lT] h = (Ok g, h1)
  ∧ call_method py g "terms" [] h2 = (Ok (VRef lT), h2)
  ∧ deref h2 (VRef lT) = Some (T ++ concat Es).
Proof.
  intros Hc HT g h1 h2.
  split; [apply construct_aggregate; cases_in Hc; auto|].
  assert (lT ≠ length h) as Hne by (pose proof (lookup_lt_Some _ _ _ HT); lia).
  assert (∀ hx Tx,
    hx !! length h = Some (OInstance c {["term" := VRef lT]}) →
    hx !! lT = Some (OList Tx) →
    run_ops py (add_terms_calls g Es) hx !! length h
    = Some (OInstance c {["term" := VRef lT]})
    ∧ run_ops py (add_terms_calls g Es) hx !! lT
      = Some (OList (Tx ++ concat Es))) as Hgen.
  { clear h2. subst g. induction Es as [|E Es IH]; intros hx Tx Hl HTx.
    - simpl. by rewrite app_nil_r.
    - unfold add_terms_calls. rewrite fmap_cons, !run_ops_cons.
      fold (add_terms_calls (VRef (length h)) Es). unfold run_op. rewrite (call_add_terms py hx _ c lT Tx E Hc Hl HTx). simpl.
      rewrite app_assoc. apply IH.
      + rewrite list_lookup_insert_ne by done. by apply lookup_app_l_Some.
      + apply list_lookup_insert_eq. rewrite length_app.
        apply lookup_lt_Some in HTx. lia. }
  destruct (Hgen h1 T) as [Hl2 HT2].
  - apply lookup_fresh.
  - by apply lookup_app_l_Some.
  - split; [by apply (call_terms py _ _ c)|]. simpl.
    fold h2 in HT2. by rewrite HT2.
Qed.

Lemma add_terms_accumulates_witness :
  let h := [OList [VTerm 1]] in
  let g := VRef 1 in
  let h2 := run_ops Py3 (add_terms_calls g [[VTerm 2; VTerm 3]; []; [VTerm 4]])
              (h ++ [OInstance MaxMinGoal {["term" := VRef 0]}]) in
  deref h2 (VRef 0) = Some ([VTerm 1] ++ concat [[VTerm 2; VTerm 3]; []; [VTerm 4]]).
Proof.
  refine (proj2 (proj2 (add_terms_accumulates Py3 MaxMinGoal [OList [VTerm 1]] 0
    [VTerm 1] [[VTerm 2; VTerm 3]; []; [VTerm 4]] _ _)));
    [compute_done | reflexivity].
Defined.

(** Extra X3.  Two aggregate goals built from the same list share it:
    terms added through one goal are returned by [terms()] of the other. *)
Theorem goals_over_one_list_share_it py c1 c2 h lT T E :
  c1 ∈ aggregate_goals → c2 ∈ aggregate_goals →
  h !! lT = Some (OList T) →
  ∃ g1 g2 h1 h2 h3,
    construct py c1 [VRef lT] h = (Ok g1, h1)
    ∧ construct py c2 [VRef lT] h1 = (Ok g2, h2)
    ∧ g1 ≠ g2
    ∧ call_method py g1 "add_terms" E h2 = (Ok VNone, h3)
    ∧ ∃ r, call_method py g2 "terms" [] h3 = (Ok r, h3)
           ∧ deref h3 r = Some (T ++ E).
Proof.
  intros Hc1 Hc2 HT.
  set (i1 := OInstance c1 {["term" := VRef lT]}).
  set (i2 := OInstance c2 {["term" := VRef lT]}).
  set (h1 := h ++ [i1]). set (h2 := h1 ++ [i2]).
  set (h3 := <[lT := OList (T ++ E)]> (h2 ++ [OList E])).
  pose proof (lookup_lt_Some _ _ _ HT) as Hlt.
  assert (length h1 = S (length h)) as L1 by (unfold h1; rewrite length_app; simpl; lia).
  assert (h2 !! length h = Some i1) as Hg1.
  { unfold h2. apply lookup_app_l_Some, lookup_fresh. }
  assert (h2 !! length h1 = Some i2) as Hg2 by apply lookup_fresh.
  assert (h2 !! lT = Some (OList T)) as HT2 by by do 2 apply lookup_app_l_Some.
  exists (VRef (length h)), (VRef (length h1)), h1, h2, h3.
  split; [apply construct_aggregate; cases_in Hc1; auto|].
  split; [apply construct_aggregate; cases_in Hc2; auto|].
  split; [intros [=]; lia|].
  split; [by apply (call_add_terms py h2 _ c1 lT T E Hc1)|].
  exists (VRef lT). split.
  - apply (call_terms py h3 _ c2 _ Hc2). unfold h3.
    rewrite list_lookup_insert_ne by lia. by apply lookup_app_l_Some.
  - simpl. unfold h3. rewrite list_lookup_insert_eq; [done|].
    rewrite length_app. apply lookup_lt_Some in HT2. lia.
Qed.

Lemma goals_over_one_list_share_it_witness :
  let h := [OList [VTerm 1]] in
  ∃ g1 g2 h1 h2 h3,
    construct Py3 MinMaxGoal [VRef 0] h = (Ok g1, h1)
    ∧ construct Py3 MaxMinGoal [VRef 0] h1 = (Ok g2, h2)
    ∧ g1 ≠ g2
    ∧ call_method Py3 g1 "add_terms" [VTerm 2] h2 = (Ok VNone, h3)
    ∧ ∃ r, call_method Py3 g2 "terms" [] h3 = (Ok r, h3)
           ∧ deref h3 r = Some ([VTerm 1] ++ [VTerm 2]).
Proof.
  apply (goals_over_one_list_share_it Py3 MinMaxGoal MaxMinGoal [OList [VTerm 1]] 0
           [VTerm 1] [VTerm 2]); [compute_done | compute_done | reflexivity].
Defined.

(** Extra X4.  A MinMaxGoal or MaxMinGoal built from a list or a tuple
    answers [is_simple_goal()] with [True], but [term] is the attribute
    that holds its sequence, not a method: the call [term(...)] raises
    [TypeError] and changes nothing. *)
Theorem term_of_an_aggregate_goal_is_not_callable py c t T h args :
  c ∈ aggregate_goals → deref h t = Some T →
  let g := VRef (length h) in
  let h1 := h ++ [OInstance c {["term" := t]}] in
  construct py c [t] h = (Ok g, h1)
  ∧ call_method py g "is_simple_goal" [] h1 = (Ok (VBool true), h1)
  ∧ call_method py g "term" args h1 = (Raise TypeError, h1).
Proof.
  intros Hc Ht g h1.
  assert (h1 !! length h = Some (OInstance c {["term" := t]})) as Hl
    by apply lookup_fresh.
  split; [apply construct_aggregate; cases_in Hc; auto|]. split.
  - unfold g, call_method. rewrite Hl, lookup_singleton_ne by done.
    by cases_in Hc; subst c.
  - unfold g, call_method. by rewrite Hl, lookup_singleton_eq.
Qed.

Lemma term_of_an_aggregate_goal_is_not_callable_witness :
  let h1 := [OList [VTerm 1]; OInstance MaxMinGoal {["term" := VRef 0]}] in
  call_method Py3 (VRef 1) "is_simple_goal" [] h1 = (Ok (VBool true), h1)
  ∧ call_method Py3 (VRef 1) "term" [] h1 = (Raise TypeError, h1).
Proof.
  refine (proj2 (term_of_an_aggregate_goal_is_not_callable Py3 MaxMinGoal (VRef 0)
    [VTerm 1] [OList [VTerm 1]] [] _ _)); [compute_done | reflexivity].
Defined.

(** Extra X5.  [add_terms] needs the stored sequence to be a list: on a goal
    built from a tuple it raises [AttributeError] before anything is
    changed, and [terms()] still returns the tuple. *)
Theorem add_terms_needs_a_list py c vs E h :
  c ∈ aggregate_goals →
  let g := VRef (length h) in
  let h1 := h ++ [OInstance c {["term" := VTuple vs]}] in
  construct py c [VTuple vs] h = (Ok g, h1)
  ∧ call_method py g "add_terms" E h1 = (Raise AttributeError, h1)
  ∧ call_method py g "terms" [] h1 = (Ok (VTuple vs), h1).
Proof.
  intros Hc g h1.
  assert (h1 !! length h = Some (OInstance c {["term" := VTuple vs]})) as Hl
    by apply lookup_fresh.
  split; [apply construct_aggregate; cases_in Hc; auto|]. split.
  - unfold g, call_method. rewrite Hl, lookup_singleton_ne by done.
    cases_in Hc; subst c; simpl;
      unfold MinMaxGoal_add_terms, MaxMinGoal_add_terms, mbind, M_bind, bind,
        getattr; by rewrite Hl, lookup_singleton_eq.
  - by apply (call_terms py h1 _ c).
Qed.

Lemma add_terms_needs_a_list_witness :
  let h1 := [OInstance MinMaxGoal {["term" := VTuple [VTerm 1]]}] in
  call_method Py3 (VRef 0) "add_terms" [VTerm 2] h1 = (Raise AttributeError, h1)
  ∧ call_method Py3 (VRef 0) "terms" [] h1 = (Ok (VTuple [VTerm 1]), h1).
Proof.
  refine (proj2 (add_terms_needs_a_list Py3 MinMaxGoal [VTerm 1] [VTerm 2] [] _));
    compute_done.
Defined.

Lemma construct_attrs py c args h g h1 :
  construct py c args h = (Ok g, h1) →
  g = VRef (length h) ∧
  ∃ attrs, h1 !! length h = Some (OInstance c attrs) ∧
    ∀ name, name ∉ attr_names c → attrs !! name = None.
Proof.
  intros Hcons. pose proof (construct_arity _ _ _ _ _ _ Hcons) as Har.
  destruct (construct_instance _ _ _ _ _ _ Hcons) as (-> & attrs0 & Hl0 & _).
  split; [done|]. revert Hcons Hl0.
  destruct c; simpl in Har.
  1,2: destruct args; [|done]; intros [= <-] _; exists ∅;
       by rewrite lookup_fresh.
  1,2: destruct args as [|f [|? ?]]; try done;
       rewrite construct_simple by auto; intros [= <-] _; eexists;
       rewrite lookup_fresh; (split; [done|]); intros name Hn;
       apply lookup_singleton_ne; intros <-; apply Hn; compute_done.
  1,2: destruct args as [|f [|? ?]]; try done;
       rewrite construct_aggregate by auto; intros [= <-] _; eexists;
       rewrite lookup_fresh; (split; [done|]); intros name Hn;
       apply lookup_singleton_ne; intros <-; apply Hn; compute_done.
  destruct args as [|a [|b [|? ?]]]; try done.
  unfold construct, mbind, M_bind, bind, alloc. simpl.
  unfold MaxSMTGoal___init__, mbind, M_bind, bind.
  destruct (py_zip py a b (h ++ [OInstance MaxSMTGoal ∅])) as [[z|e] h2] eqn:E;
    [|done].
  apply evolving_py_zip in E.
  pose proof (evolves_instance _ _ _ _ _ E (lookup_fresh h _)) as Hi.
  unfold setattr. rewrite Hi. simpl. intros [= <-] _.
  eexists. rewrite list_lookup_insert_eq by by eapply lookup_lt_Some.
  split; [done|]. intros name Hn. rewrite lookup_insert_ne; [done|].
  intros <-. apply Hn. compute_done.
Qed.

(** Extra X6.  On a constructed goal, after any public operations, a method
    name of this module that the class of the goal does not have (neither
    defined by it nor inherited from [Goal]) and that is not the attribute
    its constructor stores raises [AttributeError] and changes nothing:
    [terms()] and [add_terms] on a MaximizationGoal, [term()] on a
    MaxSMTGoal, [add_soft_clause] on a MinMaxGoal, and so on. *)
Theorem missing_method_raises_AttributeError py c args h g h1 ops name args' :
  name ∈ module_methods →
  construct py c args h = (Ok g, h1) →
  forallb public ops = true →
  find_method py c name = None →
  name ∉ attr_names c →
  let h2 := run_ops py ops h1 in
  call_method py g name args' h2 = (Raise AttributeError, h2).
Proof.
  intros _ Hcons Hops Hf Hn h2.
  destruct (construct_attrs _ _ _ _ _ _ Hcons) as (-> & attrs & Hl & Ha).
  assert (h2 !! length h = Some (OInstance c attrs)) as Hl2.
  { eapply evolves_instance; [by apply run_ops_evolves | done]. }
  unfold call_method. by rewrite Hl2, (Ha _ Hn), Hf.
Qed.

Lemma missing_method_raises_AttributeError_witness :
  let h1 := [OInstance MaximizationGoal {["formula" := VTerm 1]}] in
  call_method Py3 (VRef 0) "terms" [] h1 = (Raise AttributeError, h1).
Proof.
  apply (missing_method_raises_AttributeError Py3 MaximizationGoal [VTerm 1] []
           (VRef 0) _ [] "terms" []);
    [compute_done | reflexivity | reflexivity | reflexivity | compute_done].
Defined.

(** Extra X7.  Construction changes no existing object, whether it returns
    or raises: the heap afterwards is the heap before with new cells at
    its end.  (Under Python 2 the [zip] of MaxSMTGoal consumes an argument
    that is an iterator, hence the restriction.) *)
Lemma py_iter_appends v h r h' : py_iter v h = (r, h') → ∃ k, h' = h ++ k.
Proof.
  unfold py_iter, alloc. destruct v; try (intros [= <- <-]; exists []; by rewrite app_nil_r).
  - intros [= <- <-]. eauto.
  - destruct (h !! l) as [[]|]; intros [= <- <-]; eauto;
      exists []; by rewrite app_nil_r.
Qed.



(** Extra X8.  The one check [MaxSMTGoal(clause, weight)] makes on its two
    arguments is that [zip] can iterate them: a clause argument that is
    [None], a number or a goal instance raises [TypeError], and so does
    such a weight argument after a clause argument that is a sequence. *)
Lemma py_iter_not_iterable h o v :
  not_iterable h v = true → py_iter v (h ++ [o]) = (Raise TypeError, h ++ [o]).
Proof.
  unfold not_iterable, py_iter. destruct v; try done.
  destruct (h !! l) as [[]|] eqn:E; try done.
  by rewrite (lookup_app_l_Some _ _ _ _ E).
Qed.

Theorem MaxSMTGoal_rejects_what_is_not_iterable py a b h :
  not_iterable h a = true
  ∨ (is_Some (deref h a) ∧ not_iterable h b = true) →
  ∃ k, construct py MaxSMTGoal [a; b] h = (Raise TypeError, h ++ k).
Proof.
  intros Hcase. unfold construct, mbind, M_bind, bind, alloc. simpl.
  unfold MaxSMTGoal___init__, py_zip, mbind, M_bind, bind.
  destruct Hcase as [Ha | [[A Ha] Hb]].
  - rewrite (py_iter_not_iterable _ _ _ Ha). eauto.
  - destruct (py_iter_seq (h ++ [OInstance MaxSMTGoal ∅]) a A) as [-> _];
      [by apply deref_alloc|].
    rewrite py_iter_not_iterable.
    + rewrite <- app_assoc. eauto.
    + revert Hb. unfold not_iterable. destruct b; try done.
      destruct (h !! l) as [[]|] eqn:E; try done.
      by rewrite (lookup_app_l_Some _ _ _ _ E).
Qed.

Lemma MaxSMTGoal_rejects_what_is_not_iterable_witness :
  ∃ k, construct Py2 MaxSMTGoal [VTuple [VTerm 1]; VInt 3] []
       = (Raise TypeError, [] ++ k).
Proof.
  apply (MaxSMTGoal_rejects_what_is_not_iterable Py2 (VTuple [VTerm 1]) (VInt 3) []).
  right. split; [by eexists | reflexivity].
Defined.

(** Extra X9.  Under Python 3 the pairing is not taken at construction: if
    the caller changes the two lists it passed before the soft pairs are
    first read, the pairs read are those of the lists as they are then. *)
Theorem lazy_pairing_sees_later_changes h la lb A B A' B' :
  la ≠ lb →
  h !! la = Some (OList A) → h !! lb = Some (OList B) →
  let g := VRef (length h) in
  let h1 := maxsmt_heap3 h (VRef la) (VRef lb) in
  let h2 := run_ops Py3 [Mutate la A'; Mutate lb B'] h1 in
  construct Py3 MaxSMTGoal [VRef la; VRef lb] h = (Ok g, h1)
  ∧ ∃ h3, ∀ fuel, length (zip_with soft_pair A' B') < fuel →
      soft_pairs fuel g h2 = Some (Ok (zip_with soft_pair A' B'), h3).
Proof.
  intros Hne Ha Hb g h1 h2.
  assert (deref h (VRef la) = Some A) as Hda by (simpl; by rewrite Ha).
  assert (deref h (VRef lb) = Some B) as Hdb by (simpl; by rewrite Hb).
  split; [by eapply construct_MaxSMTGoal_py3|].
  destruct (maxsmt_heap3_lazy h _ _ A B Hda Hdb) as (Hlazy & _ & _).
  pose proof (lookup_lt_Some _ _ _ Ha) as Hla.
  pose proof (lookup_lt_Some _ _ _ Hb) as Hlb.
  assert (h1 !! la = Some (OList A)) as Ha1 by by apply zip_cells_old.
  assert (h1 !! lb = Some (OList B)) as Hb1 by by apply zip_cells_old.
  assert (h2 = <[lb := OList B']> (<[la := OList A']> h1)) as E2.
  { unfold h2, run_ops. simpl. rewrite Ha1.
    by rewrite list_lookup_insert_ne, Hb1 by done. }
  assert (length h1 = length h + 4) as L1 by apply zip_cells_length.
  assert (h2 !! la = Some (OList A')) as Ha2.
  { rewrite E2, list_lookup_insert_ne by done.
    apply list_lookup_insert_eq. lia. }
  assert (h2 !! lb = Some (OList B')) as Hb2.
  { rewrite E2. apply list_lookup_insert_eq. rewrite length_insert. lia. }
  assert (evolves h1 h2) as He by (by apply (run_ops_evolves Py3 [_; _])).
  assert (lazy_soft h2 g (length h + 3) (length h + 1) (length h + 2)) as Hlazy2
    by by eapply lazy_soft_evolves.
  assert (h2 !! (length h + 1) = Some (OSeqIter (Some (SrcList la)) 0)) as Hia.
  { rewrite E2, !list_lookup_insert_ne by lia.
    unfold h1, maxsmt_heap3, zip_cells. by rewrite lookup_app_at. }
  assert (h2 !! (length h + 2) = Some (OSeqIter (Some (SrcList lb)) 0)) as Hib.
  { rewrite E2, !list_lookup_insert_ne by lia.
    unfold h1, maxsmt_heap3, zip_cells. by rewrite lookup_app_at. }
  assert (iter_rest h2 (length h + 1) = A') as HA.
  { unfold iter_rest. rewrite Hia. simpl. by rewrite Ha2. }
  assert (iter_rest h2 (length h + 2) = B') as HB.
  { unfold iter_rest. rewrite Hib. simpl. by rewrite Hb2. }
  destruct (soft_pairs_lazy _ _ _ _ _ (S (length (zip_with soft_pair A' B'))) Hlazy2)
    as (h3 & Hsp & _); [rewrite HA, HB; lia|].
  rewrite HA, HB in Hsp. exists h3. intros fuel Hfuel.
  eapply soft_pairs_mono; [exact Hsp | lia].
Qed.

Lemma lazy_pairing_sees_later_changes_witness :
  let h := [OList [VTerm 1]; OList [VInt 10]] in
  let h1 := maxsmt_heap3 h (VRef 0) (VRef 1) in
  let h2 := run_ops Py3 [Mutate 0 [VTerm 5; VTerm 6]; Mutate 1 [VInt 7; VInt 8]] h1 in
  ∃ h3, ∀ fuel, length (zip_with soft_pair [VTerm 5; VTerm 6] [VInt 7; VInt 8]) < fuel →
    soft_pairs fuel (VRef 2) h2
    = Some (Ok (zip_with soft_pair [VTerm 5; VTerm 6] [VInt 7; VInt 8]), h3).
Proof.
  refine (proj2 (lazy_pairing_sees_later_changes [OList [VTerm 1]; OList [VInt 10]]
    0 1 [VTerm 1] [VInt 10] [VTerm 5; VTerm 6] [VInt 7; VInt 8] _ _ _));
    [lia | reflexivity | reflexivity].
Defined.



(** Extra X13.  Under Python 2 the pairing is taken at construction: whatever
    the caller does afterwards to the lists it holds, the soft pairs read
    are those of the two arguments as they were. *)
Theorem eager_pairing_is_a_snapshot h a b A B ops :
  deref h a = Some A → deref h b = Some B →
  Forall (λ o, ∃ l items, o = Mutate l items ∧ l < length h) ops →
  ∃ g h1,
    construct Py2 MaxSMTGoal [a; b] h = (Ok g, h1)
    ∧ ∃ h3, ∀ fuel, length (zip_with soft_pair A B) < fuel →
        soft_pairs fuel g (run_ops Py2 ops h1)
        = Some (Ok (zip_with soft_pair A B), h3).
Proof.
  intros Ha Hb Hops.
  destruct (construct_MaxSMTGoal_py2 h a b A B Ha Hb) as (h1 & Hc & Hl & Hls & _).
  exists (VRef (length h)), h1. split; [done|].
  assert (∀ hx,
    hx !! length h
    = Some (OInstance MaxSMTGoal {["soft" := VRef (length h + 4)]}) →
    hx !! (length h + 4) = Some (OList (zip_with soft_pair A B)) →
    run_ops Py2 ops hx !! length h
    = Some (OInstance MaxSMTGoal {["soft" := VRef (length h + 4)]})
    ∧ run_ops Py2 ops hx !! (length h + 4)
      = Some (OList (zip_with soft_pair A B))) as Hgen.
  { induction Hops as [|o ops (l & items & -> & Hlt) _ IH]; intros hx Hlx Hlsx;
      [done|].
    rewrite run_ops_cons. apply IH; unfold run_op;
      destruct (hx !! l) as [[]|]; try done;
      by rewrite list_lookup_insert_ne by lia. }
  destruct (Hgen h1 Hl Hls) as [Hl2 Hls2].
  destruct (soft_pairs_eager _ _ _ _ _ (S (length (zip_with soft_pair A B))) Hl2
              (lookup_singleton_eq _ _) Hls2) as [p' Hsp]; [lia|].
  eexists. intros fuel Hfuel. eapply soft_pairs_mono; [exact Hsp | lia].
Qed.

Lemma eager_pairing_is_a_snapshot_witness :
  let h := [OList [VTerm 1]; OList [VInt 10]] in
  ∃ g h1,
    construct Py2 MaxSMTGoal [VRef 0; VRef 1] h = (Ok g, h1)
    ∧ ∃ h3, ∀ fuel, length (zip_with soft_pair [VTerm 1] [VInt 10]) < fuel →
        soft_pairs fuel g (run_ops Py2 [Mutate 0 []; Mutate 1 [VInt 7; VInt 8]] h1)
        = Some (Ok (zip_with soft_pair [VTerm 1] [VInt 10]), h3).
Proof.
  apply (eager_pairing_is_a_snapshot [OList [VTerm 1]; OList [VInt 10]]
           (VRef 0) (VRef 1) [VTerm 1] [VInt 10]
           [Mutate 0 []; Mutate 1 [VInt 7; VInt 8]]); [reflexivity | reflexivity |].
  repeat constructor; eexists _, _; (split; [reflexivity | simpl; lia]).
Defined.

(** ** Witnesses of the general facts about the pairing *)

Lemma add_soft_clause_raises_py3_witness :
  let h := [OList [VTerm 1]] in
  let h1 := maxsmt_heap3 h (VRef 0) (VTuple [VInt 5]) in
  call_method Py3 (VRef 1) "add_soft_clause" [VTerm 2; VInt 6] h1
  = (Raise AttributeError, h1).
Proof.
  refine (proj2 (add_soft_clause_raises_py3 [OList [VTerm 1]] (VRef 0)
    (VTuple [VInt 5]) [VTerm 1] [VInt 5] (VTerm 2) (VInt 6) _ _)); reflexivity.
Defined.


Lemma add_soft_clause_appends_py2_witness :
  let h := [OList [VTerm 1]; OList [VInt 5]] in
  ∃ g h1 h2 h3,
    construct Py2 MaxSMTGoal [VRef 0; VRef 1] h = (Ok g, h1)
    ∧ call_method Py2 g "add_soft_clause" [VTerm 2; VInt 6] h1 = (Ok VNone, h2)
    ∧ ∀ fuel, S (length (zip_with soft_pair [VTerm 1] [VInt 5])) < fuel →
        soft_pairs fuel g h2
        = Some (Ok (zip_with soft_pair [VTerm 1] [VInt 5]
                    ++ [soft_pair (VTerm 2) (VInt 6)]), h3).
Proof.
  apply (add_soft_clause_appends_py2 [OList [VTerm 1]; OList [VInt 5]] (VRef 0)
           (VRef 1) [VTerm 1] [VInt 5] (VTerm 2) (VInt 6)); reflexivity.
Defined.

Lemma eager_pairing_is_persistent_witness :
  let h := [OList [VTerm 1]; OList [VInt 5]] in
  ∃ g h1, construct Py2 MaxSMTGoal [VRef 0; VRef 1] h = (Ok g, h1)
    ∧ ∀ ops, Forall (λ o, ∃ fuel, o = Read g fuel) ops →
        ∃ n h3, ∀ fuel, n ≤ fuel →
          soft_pairs fuel g (run_ops Py2 ops h1)
          = Some (Ok (zip_with soft_pair [VTerm 1] [VInt 5]), h3).
Proof.
  apply (eager_pairing_is_persistent [OList [VTerm 1]; OList [VInt 5]] (VRef 0)
           (VRef 1) [VTerm 1] [VInt 5]); reflexivity.
Defined.
